(** * youtube-overlay-server: the Twitch credential and aggregation layer

    A shallow embedding of
      - src/middlewares/twitchTokenMiddleware.ts (the app-token cache),
      - src/utils/twitchApi.ts (the Helix client, the search and the
        followed-streams aggregation, the user-token refresh),
      - the handlers of GET /channels/:name and GET /streams/:name and the
        error handler of src/index.ts,
    with the theorems that settle the claims C1 to C10 of the specification. *)

From Stdlib Require Import ZArith List String Bool Lia Sorted Permutation.
From Stdlib Require Import DecimalString.
Import ListNotations.
Open Scope string_scope.
Open Scope Z_scope.

(* ================================================================== *)
(** * HTTP responses and exceptions *)

(** What the code reads off a [fetch] response: [status], [statusText] and
    the parsed JSON body.  [response.ok] is the fetch API's 2xx test. *)
Record Response (A : Type) : Type := mkResponse {
  status : Z;
  statusText : string;
  body : A
}.
Arguments mkResponse {A} _ _ _.
Arguments status {A} _.
Arguments statusText {A} _.
Arguments body {A} _.

Definition ok {A : Type} (r : Response A) : bool :=
  (200 <=? status r) && (status r <=? 299).

(** The exceptions the program can raise.  [HTTPException] is hono's class;
    [TypeError] is the runtime's own (a property read on [undefined]);
    [PrismaError] is the client's "record to update not found". *)
Inductive Exn : Type :=
| HTTPException (code : Z) (message : string)
| TypeError (message : string)
| PrismaError (message : string).

(** interfaces/errors.ts *)
Definition AuthenticationError : Exn := HTTPException 401 "Unauthorized".
Definition NotFoundError (message : string) : Exn := HTTPException 404 message.

(** Template literals print a number in decimal. *)
Definition string_of_Z (z : Z) : string := NilZero.string_of_int (Z.to_int z).

(* ================================================================== *)
(** * The app-token cache: middlewares/twitchTokenMiddleware.ts *)

Module TokenCache.

(** The token endpoint's answer to a client-credentials grant. *)
Record TwitchTokenResponse : Type := mkToken {
  access_token : string;
  expires_in : Z;
  token_type : string
}.

Definition MAX_CACHE_DURATION : Z := 24 * 60 * 60 * 1000.
Definition EXPIRY_BUFFER : Z := 60 * 1000.

(** The two module-level variables, both [null] when the module is loaded. *)
Record Cache : Type := mkCache {
  cachedToken : option TwitchTokenResponse;
  tokenExpiryTime : option Z
}.

Definition initial : Cache := mkCache None None.

(** Lines 22-26: [cachedToken && tokenExpiryTime && currentTime <
    tokenExpiryTime - EXPIRY_BUFFER].  An object is truthy; a number is truthy
    unless it is 0. *)
Definition lookup (c : Cache) (currentTime : Z) : option TwitchTokenResponse :=
  match cachedToken c, tokenExpiryTime c with
  | Some tok, Some expiry =>
      if negb (expiry =? 0) && (currentTime <? expiry - EXPIRY_BUFFER)
      then Some tok else None
  | _, _ => None
  end.

(** Lines 52-54: what is written after a successful fetch, [now] being the
    second reading of [Date.now()]. *)
Definition store (data : TwitchTokenResponse) (now : Z) : Cache :=
  let expiresInMs := Z.min (expires_in data * 1000) MAX_CACHE_DURATION in
  mkCache (Some data) (Some (now + expiresInMs - EXPIRY_BUFFER)).

(** What one run of the middleware meets outside itself: the clock at line 20,
    the token endpoint's answer should it be asked, and the clock at line 54. *)
Record Invocation : Type := mkInvocation {
  currentTime : Z;
  response : Response TwitchTokenResponse;
  storeTime : Z
}.

(** How a run ends: the credential put in the context from the cache, or
    after a request to the token endpoint, or the exception of line 45. *)
Inductive Served : Type :=
| FromCache (tok : TwitchTokenResponse)
| Fetched (tok : TwitchTokenResponse)
| Failed (e : Exn).

Definition issues_request (s : Served) : bool :=
  match s with FromCache _ => false | _ => true end.

Definition twitchTokenMiddleware (c : Cache) (i : Invocation) : Cache * Served :=
  match lookup c (currentTime i) with
  | Some tok => (c, FromCache tok)
  | None =>
      let response := response i in
      if negb (ok response) then
        (c, Failed (HTTPException 500
                      ("Failed to fetch Twitch token: " ++ statusText response)))
      else
        let data := body response in
        (store data (storeTime i),
         Fetched (mkToken (access_token data) (expires_in data) (token_type data)))
  end.

(** ** Calls one after the other *)

(** The credential behind the cache, in the specification's terms: when it
    was issued (stored) and the lifetime the token endpoint reported. *)
Record AppCredential : Type := mkCredential {
  issuedAt : Z;
  ttlSeconds : Z;
  credential : TwitchTokenResponse
}.

(** One call, keeping beside the cache the record of the last credential
    that was stored. *)
Definition call (st : Cache * option AppCredential) (i : Invocation)
  : Cache * option AppCredential :=
  let '(c, issued) := st in
  match twitchTokenMiddleware c i with
  | (c', Fetched _) =>
      (c', Some (mkCredential (storeTime i) (expires_in (body (response i)))
                              (body (response i))))
  | (c', _) => (c', issued)
  end.

Definition calls (l : list Invocation) : Cache * option AppCredential :=
  fold_left call l (initial, None).

(** Validity left at [now], the reported lifetime capped at 24 hours. *)
Definition remaining_validity (a : AppCredential) (now : Z) : Z :=
  issuedAt a + Z.min (ttlSeconds a * 1000) MAX_CACHE_DURATION - now.

(** The refresh condition in the specification's words: nothing cached, or
    the remaining validity below the buffer. *)
Definition spec_refresh_due (issued : option AppCredential) (now : Z) : Prop :=
  match issued with
  | None => True
  | Some a => remaining_validity a now < EXPIRY_BUFFER
  end.

(** The refresh condition of the code: the buffer is subtracted when the
    expiry is stored and again when it is compared. *)
Definition refresh_due (issued : option AppCredential) (now : Z) : Prop :=
  match issued with
  | None => True
  | Some a => remaining_validity a now <= 2 * EXPIRY_BUFFER
  end.

(** What links the cache to the credential last stored. *)
Definition agrees (st : Cache * option AppCredential) : Prop :=
  match snd st with
  | None => fst st = initial
  | Some a =>
      fst st =
      mkCache (Some (credential a))
              (Some (issuedAt a
                     + Z.min (ttlSeconds a * 1000) MAX_CACHE_DURATION
                     - EXPIRY_BUFFER))
  end.

(** ** Calls that overlap *)

(** The middleware suspends at [await fetch] (line 32) and, for the body of
    the answer, at line 50; the code before the first and the code after the
    second each run without interruption, and nothing in between touches the
    cache, so the two are taken as one.  A system state is the cache, the
    number of token requests that are awaiting their answer, and the number
    issued so far. *)
Record Sys : Type := mkSys {
  cache : Cache;
  in_flight : nat;
  issued_total : nat
}.

Inductive Action : Type :=
| Arrive (now : Z)                                        (* lines 20-32 *)
| Settle (r : Response TwitchTokenResponse) (now : Z).    (* lines 44-54 *)

Definition step (s : Sys) (a : Action) : Sys :=
  match a with
  | Arrive now =>
      match lookup (cache s) now with
      | Some _ => s
      | None => mkSys (cache s) (S (in_flight s)) (S (issued_total s))
      end
  | Settle r now =>
      match in_flight s with
      | O => s
      | S n =>
          if negb (ok r) then mkSys (cache s) n (issued_total s)
          else mkSys (store (body r) now) n (issued_total s)
      end
  end.

Definition run (s : Sys) (l : list Action) : Sys := fold_left step l s.

Definition idle (c : Cache) : Sys := mkSys c 0 0.

End TokenCache.

(* ================================================================== *)
(** * The Helix client and the aggregation: utils/twitchApi.ts *)

(** ** The shapes the endpoints return *)

(** The interfaces of the source, field for field.  A [number] is an integer
    here: the counts Helix reports are. *)

Module UserData.
Record t : Type := mk {
  id : string;
  login : string;
  display_name : string;
  type : string;
  broadcaster_type : string;
  description : string;
  profile_image_url : string;
  offline_image_url : string;
  view_count : Z;
  created_at : string
}.
End UserData.

Module StreamData.
Record t : Type := mk {
  id : string;
  user_id : string;
  user_login : string;
  user_name : string;
  game_id : string;
  game_name : string;
  type : string;
  title : string;
  tags : list string;
  viewer_count : Z;
  started_at : string;
  language : string;
  thumbnail_url : string;
  is_mature : bool
}.
End StreamData.

Module ChannelData.
Record t : Type := mk {
  broadcaster_id : string;
  broadcaster_login : string;
  broadcaster_name : string;
  broadcaster_language : string;
  game_id : string;
  game_name : string;
  title : string;
  delay : Z;
  tags : list string;
  content_classification_labels : list string;
  is_branded_content : bool
}.
End ChannelData.

Module SearchData.
Record t : Type := mk {
  broadcaster_language : string;
  broadcaster_login : string;
  display_name : string;
  game_id : string;
  game_name : string;
  id : string;
  is_live : bool;
  tags : list string;
  thumbnail_url : string;
  title : string;
  started_at : string
}.
End SearchData.

Module FollowedStreamsData.
Record t : Type := mk {
  user_id : string;
  user_login : string;
  user_name : string;
  game_name : string;
  title : string;
  type : string;
  viewer_count : Z
}.
End FollowedStreamsData.

(** The token endpoint's answer to a refresh grant. *)
Module TwitchTokenResponse.
Record t : Type := mk {
  access_token : string;
  refresh_token : string;
  expires_in : Z
}.
End TwitchTokenResponse.

(** interfaces/streamer.ts *)
Record Streamer : Type := mkStreamer {
  channelId : string;
  displayName : string;
  loginName : string;
  profileImageUrl : string;
  title : string;
  gameName : string;
  viewers : Z;
  isLive : bool
}.

(** Modelled from the spec: the account store.  [prismaClient] and its schema
    are not among the sources; a row carries the columns the code reads and
    writes, and the nullable ones are options. *)
Module Account.
Record t : Type := mk {
  id : string;
  userId : string;
  accountId : string;
  providerId : string;
  accessToken : option string;
  refreshToken : option string;
  accessTokenExpiresAt : option Z
}.
End Account.

(** ** The world outside the program *)

(** The Helix API, the identity server and the clock, as a deterministic
    server with a state [U] of its own: each request gets an answer and moves
    that state.  [first_rejection] is the scheduler's part in a fan-out: when
    several of its promises reject, which of them does so first. *)
Class Upstream (U : Type) : Type := {
  helix_users : string -> string -> U -> Response (list UserData.t) * U;
  helix_streams : string -> string -> U -> Response (list StreamData.t) * U;
  helix_search_channels :
    string -> string -> U -> Response (list SearchData.t) * U;
  helix_channels : string -> string -> U -> Response (list ChannelData.t) * U;
  helix_streams_followed :
    string -> string -> U -> Response (list FollowedStreamsData.t) * U;
  oauth2_token_refresh :
    string -> U -> Response (option TwitchTokenResponse.t) * U;
  date_now : U -> Z * U;
  first_rejection : U -> nat
}.

(** What the program does that can be seen from outside, in order. *)
Inductive Event : Type :=
| GetUsers (login bearer : string)
| GetStreams (user_id bearer : string)
| GetSearchChannels (query bearer : string)
| GetChannels (broadcaster_id bearer : string)
| GetStreamsFollowed (user_id bearer : string)
| PostTokenRefresh (refresh_token : string)
| AccountFindFirst (accountId : string)
| AccountUpdate (id accessToken refreshToken : string)
                (accessTokenExpiresAt : Z).

Record World (U : Type) : Type := mkWorld {
  outside : U;
  accounts : list Account.t;
  trace : list Event
}.
Arguments mkWorld {U} _ _ _.
Arguments outside {U} _.
Arguments accounts {U} _.
Arguments trace {U} _.

(** The world after requests that moved the upstream to [u'] and left the
    events [evs]. *)
Definition after {U : Type} (w : World U) (u' : U) (evs : list Event)
  : World U :=
  mkWorld u' (accounts w) (trace w ++ evs).

(** ** Promises *)

(** How an awaited call ends.  [OutOfFuel] stands for a promise that has not
    settled within the recursion depth allowed to the model. *)
Inductive Outcome (A : Type) : Type :=
| Returned (a : A)
| Thrown (e : Exn)
| OutOfFuel.
Arguments Returned {A} _.
Arguments Thrown {A} _.
Arguments OutOfFuel {A}.

Definition M (U A : Type) : Type := World U -> Outcome A * World U.

Definition ret {U A : Type} (a : A) : M U A := fun w => (Returned a, w).

Definition throw {U A : Type} (e : Exn) : M U A := fun w => (Thrown e, w).

Definition bind {U A B : Type} (m : M U A) (k : A -> M U B) : M U B :=
  fun w =>
    match m w with
    | (Returned a, w') => k a w'
    | (Thrown e, w') => (Thrown e, w')
    | (OutOfFuel, w') => (OutOfFuel, w')
    end.

Notation "x <- m ;; k" := (bind m (fun x => k))
  (at level 100, m at next level, right associativity).
Notation "m ;;; k" := (bind m (fun _ => k))
  (at level 100, right associativity).

(** Every promise of the array is started, in the array's order, and runs to
    its end whatever becomes of the others.  The callbacks mapped over the
    arrays below each reach their one [fetch] before they suspend, so the
    requests leave in the array's order; the upstream is taken to answer them
    in that order. *)
Fixpoint settle_all {U A : Type} (ps : list (M U A)) (w : World U)
  : list (Outcome A) * World U :=
  match ps with
  | [] => ([], w)
  | p :: ps' =>
      let (o, w1) := p w in
      let (os, w2) := settle_all ps' w1 in
      (o :: os, w2)
  end.

Fixpoint rejections {A : Type} (os : list (Outcome A)) : list Exn :=
  match os with
  | [] => []
  | Thrown e :: os' => e :: rejections os'
  | _ :: os' => rejections os'
  end.

Fixpoint fulfilled {A : Type} (os : list (Outcome A)) : option (list A) :=
  match os with
  | [] => Some []
  | Returned a :: os' => option_map (cons a) (fulfilled os')
  | _ :: os' => None
  end.

(** [Promise.all]: the values in the array's order when every promise is
    fulfilled, else the reason of the promise that rejected first. *)
Definition Promise_all {U A : Type} {twitch : Upstream U} (ps : list (M U A))
  : M U (list A) :=
  fun w =>
    let (os, w') := settle_all ps w in
    match rejections os with
    | e :: es => (Thrown (nth (first_rejection (outside w')) (e :: es) e), w')
    | [] =>
        match fulfilled os with
        | Some vs => (Returned vs, w')
        | None => (OutOfFuel, w')
        end
    end.

(** [Array.prototype.sort] with a comparator: a stable sort, [a] staying
    before [b] unless [compareFn a b > 0]. *)
Section ArraySort.
Context {A : Type} (compareFn : A -> A -> Z).

Fixpoint insert_sorted (a : A) (l : list A) : list A :=
  match l with
  | [] => [a]
  | b :: l' =>
      if compareFn a b <=? 0 then a :: b :: l' else b :: insert_sorted a l'
  end.

Fixpoint Array_sort (l : list A) : list A :=
  match l with
  | [] => []
  | a :: l' => insert_sorted a (Array_sort l')
  end.
End ArraySort.

(** [x || d] on a number that may be missing: 0 is falsy as [undefined] is. *)
Definition number_or (x : option Z) (d : Z) : Z :=
  match x with
  | Some v => if v =? 0 then d else v
  | None => d
  end.

(** [x || d] on a string that may be missing: the empty string is falsy. *)
Definition string_or (x : option string) (d : string) : string :=
  match x with
  | Some EmptyString => d
  | Some v => v
  | None => d
  end.

Section TwitchApi.
Context {U : Type} {twitch : Upstream U}.

(** One [await fetch(...)] and the [await response.json()] that follows it:
    the request is seen outside, the server answers and moves on.  The model
    is of runs in which every request is answered with a body of the shape
    the source declares for it: a [fetch] that rejects (no network) and a
    body that is not that JSON are outside it, and every statement below is
    about what follows from the answers. *)
Definition fetch {A : Type} (ev : Event) (serve : U -> Response A * U)
  : M U (Response A) :=
  fun w =>
    let (r, u') := serve (outside w) in
    (Returned r, mkWorld u' (accounts w) (trace w ++ [ev])).

Definition Date_now : M U Z :=
  fun w =>
    let (t, u') := date_now (outside w) in
    (Returned t, mkWorld u' (accounts w) (trace w)).

(** [prisma.account.findFirst] with [where: { accountId, providerId:
    'twitch' }]. *)
Definition twitch_account (accountId : string) (rows : list Account.t)
  : option Account.t :=
  find (fun a => (Account.accountId a =? accountId)%string
                 && (Account.providerId a =? "twitch")%string) rows.

Definition account_findFirst (accountId : string) : M U (option Account.t) :=
  fun w =>
    (Returned (twitch_account accountId (accounts w)),
     mkWorld (outside w) (accounts w) (trace w ++ [AccountFindFirst accountId])).

(** The [data] of [prisma.account.update]: the three columns are written
    together. *)
Definition set_tokens (accessToken refreshToken : string)
           (accessTokenExpiresAt : Z) (a : Account.t) : Account.t :=
  Account.mk (Account.id a) (Account.userId a) (Account.accountId a)
             (Account.providerId a)
             (Some accessToken) (Some refreshToken)
             (Some accessTokenExpiresAt).

Definition update_rows (id accessToken refreshToken : string)
           (accessTokenExpiresAt : Z) (rows : list Account.t)
  : list Account.t :=
  map (fun a => if (Account.id a =? id)%string
                then set_tokens accessToken refreshToken accessTokenExpiresAt a
                else a) rows.

(** [prisma.account.update] with [where: { id }]; it throws when no row has
    that id. *)
Definition account_update (id accessToken refreshToken : string)
           (accessTokenExpiresAt : Z) : M U unit :=
  fun w =>
    let ev := AccountUpdate id accessToken refreshToken accessTokenExpiresAt in
    if existsb (fun a => (Account.id a =? id)%string) (accounts w) then
      (Returned tt,
       mkWorld (outside w)
               (update_rows id accessToken refreshToken accessTokenExpiresAt
                            (accounts w))
               (trace w ++ [ev]))
    else
      (Thrown (PrismaError "Record to update not found."),
       mkWorld (outside w) (accounts w) (trace w ++ [ev])).

(** ** The Helix endpoints *)

Definition fetchUserData (loginName accessToken : string)
  : M U (option UserData.t) :=
  response <- fetch (GetUsers loginName accessToken)
                    (helix_users loginName accessToken) ;;
  if negb (ok response) then
    throw (HTTPException 500 ("Failed to fetch User Data for " ++ loginName))
  else
    ret (hd_error (body response)).

Definition fetchStreamData (userId accessToken : string)
  : M U (option StreamData.t) :=
  response <- fetch (GetStreams userId accessToken)
                    (helix_streams userId accessToken) ;;
  if negb (ok response) then
    throw (HTTPException 500 ("Failed to fetch Stream Data for " ++ userId))
  else
    ret (hd_error (body response)).

Definition fetchChannelData (userId accessToken : string)
  : M U (option ChannelData.t) :=
  response <- fetch (GetChannels userId accessToken)
                    (helix_channels userId accessToken) ;;
  if negb (ok response) then
    throw (HTTPException 500 ("Failed to fetch Channel Data for " ++ userId))
  else
    ret (hd_error (body response)).

(** ** Search *)

(** The callback mapped over the search results. *)
Definition search_item (accessToken : string) (stream : SearchData.t)
  : M U Streamer :=
  streamData <- fetchStreamData (SearchData.id stream) accessToken ;;
  ret {| channelId := SearchData.id stream;
         loginName := SearchData.broadcaster_login stream;
         displayName := SearchData.display_name stream;
         profileImageUrl := SearchData.thumbnail_url stream;
         gameName := SearchData.game_name stream;
         viewers := number_or (option_map StreamData.viewer_count streamData) 0;
         isLive := SearchData.is_live stream;
         title := string_or (option_map StreamData.title streamData) "" |}.

Definition by_viewers_desc (a b : Streamer) : Z := viewers b - viewers a.

Definition searchStreams (searchQuery accessToken : string)
  : M U (list Streamer) :=
  searchResponse <- fetch (GetSearchChannels searchQuery accessToken)
                          (helix_search_channels searchQuery accessToken) ;;
  if negb (ok searchResponse) then
    throw (HTTPException 500 "Failed to fetch Streams")
  else
    let searchData := body searchResponse in
    streamers <- Promise_all (map (search_item accessToken) searchData) ;;
    ret (Array_sort by_viewers_desc streamers).

(** ** The user-token refresh *)

(** The parsed body is returned as it is; the caller tests it for being
    falsy, so a body that is JSON [null] is [None] here.  The refresh token
    goes out through [encodeURIComponent], which the server undoes. *)
Definition refreshAccessToken (refreshToken : string)
  : M U (option TwitchTokenResponse.t) :=
  response <- fetch (PostTokenRefresh refreshToken)
                    (oauth2_token_refresh refreshToken) ;;
  if negb (ok response) then
    if status response =? 400 then
      throw (HTTPException 400 "INVALID_TOKEN")
    else
      throw (HTTPException 500
               ("Failed to refresh Access Token: "
                  ++ string_of_Z (status response) ++ " "
                  ++ statusText response))
  else
    ret (body response).

(** ** Followed streams *)

(** The callback mapped over the followed streams. *)
Definition followed_item (userAccessToken : string)
           (stream : FollowedStreamsData.t) : M U Streamer :=
  userData <- fetchUserData (FollowedStreamsData.user_login stream)
                            userAccessToken ;;
  match userData with
  | None =>
      throw (TypeError
               "Cannot read properties of undefined (reading 'profile_image_url')")
  | Some userData =>
      ret {| channelId := FollowedStreamsData.user_id stream;
             displayName := FollowedStreamsData.user_name stream;
             loginName := FollowedStreamsData.user_login stream;
             profileImageUrl := UserData.profile_image_url userData;
             gameName := FollowedStreamsData.game_name stream;
             viewers := FollowedStreamsData.viewer_count stream;
             isLive := true;
             title := FollowedStreamsData.title stream |}
  end.

(** [!account.refreshToken]: [null] and the empty string are falsy. *)
Definition usable_refresh_token (account : option Account.t)
  : option (Account.t * string) :=
  match account with
  | None => None
  | Some a =>
      match Account.refreshToken a with
      | None => None
      | Some EmptyString => None
      | Some rt => Some (a, rt)
      end
  end.

(** The function calls itself after a refresh; [fuel] bounds the depth of
    that recursion in the model, the source has no bound. *)
Fixpoint fetchFollowedStreams (fuel : nat) (accountId userAccessToken : string)
  : M U (list Streamer) :=
  match fuel with
  | O => fun w => (OutOfFuel, w)
  | S fuel' =>
      response <- fetch (GetStreamsFollowed accountId userAccessToken)
                        (helix_streams_followed accountId userAccessToken) ;;
      if negb (ok response) then
        if status response =? 401 then
          account <- account_findFirst accountId ;;
          match usable_refresh_token account with
          | None =>
              throw (HTTPException 500
                       "Invalid access token, no refresh token found")
          | Some (account, refreshToken) =>
              twitchData <- refreshAccessToken refreshToken ;;
              match twitchData with
              | None =>
                  throw (HTTPException 500
                    "Failed to fetch followed channels, token refresh failed")
              | Some twitchData =>
                  now <- Date_now ;;
                  account_update
                    (Account.id account)
                    (TwitchTokenResponse.access_token twitchData)
                    (TwitchTokenResponse.refresh_token twitchData)
                    (now + TwitchTokenResponse.expires_in twitchData * 1000) ;;;
                  fetchFollowedStreams
                    fuel' accountId
                    (TwitchTokenResponse.access_token twitchData)
              end
          end
        else
          throw (HTTPException 500
                   ("Failed to fetch Followed Channels for " ++ accountId
                      ++ ": " ++ string_of_Z (status response) ++ " "
                      ++ statusText response))
      else
        let followedStreams := body response in
        Promise_all (map (followed_item userAccessToken) followedStreams)
  end.

(* ================================================================ *)
(** * The routes: index.ts *)

(** The handler of GET /channels/:name, given the app token the middleware
    put in the context. *)
Definition getChannel (name access_token : string) : M U Streamer :=
  userData <- fetchUserData name access_token ;;
  match userData with
  | None => throw (NotFoundError "Channel not found")
  | Some userData =>
      let broadcasterId := UserData.id userData in
      streamData <- fetchStreamData broadcasterId access_token ;;
      match streamData with
      | Some streamData =>
          ret {| channelId := UserData.id userData;
                 displayName := UserData.display_name userData;
                 loginName := UserData.login userData;
                 profileImageUrl := UserData.profile_image_url userData;
                 gameName := StreamData.game_name streamData;
                 viewers := StreamData.viewer_count streamData;
                 isLive := (StreamData.type streamData =? "live")%string;
                 title := StreamData.title streamData |}
      | None =>
          channelData <- fetchChannelData broadcasterId access_token ;;
          match channelData with
          | None => throw (NotFoundError "Channel not found")
          | Some channelData =>
              ret {| channelId := UserData.id userData;
                     displayName := UserData.display_name userData;
                     loginName := UserData.login userData;
                     profileImageUrl := UserData.profile_image_url userData;
                     gameName := ChannelData.game_name channelData;
                     title := ChannelData.title channelData;
                     viewers := 0;
                     isLive := false |}
          end
      end
  end.

End TwitchApi.

(** [app.onError]: the message and the status sent to the client. *)
Definition onError (err : Exn) : string * Z :=
  match err with
  | HTTPException code message => (message, code)
  | _ => ("An unexpected error occurred", 500)
  end.

(** The order of the search results: no fewer viewers than what follows. *)
Definition no_fewer_viewers (a b : Streamer) : Prop := viewers b <= viewers a.

(** The world in which the retried call starts: the upstream has answered
    the request for followed streams and the refresh, the account's row holds
    the new tokens, and four events have been added. *)
Definition after_refresh {U : Type} (w : World U) (u' : U)
           (accountId userAccessToken refreshToken : string)
           (account : Account.t) (twitchData : TwitchTokenResponse.t) (now : Z)
  : World U :=
  let expiry := now + TwitchTokenResponse.expires_in twitchData * 1000 in
  mkWorld u'
          (update_rows (Account.id account)
                       (TwitchTokenResponse.access_token twitchData)
                       (TwitchTokenResponse.refresh_token twitchData)
                       expiry (accounts w))
          (trace w ++ [GetStreamsFollowed accountId userAccessToken;
                       AccountFindFirst accountId;
                       PostTokenRefresh refreshToken;
                       AccountUpdate (Account.id account)
                                     (TwitchTokenResponse.access_token twitchData)
                                     (TwitchTokenResponse.refresh_token twitchData)
                                     expiry]).

(** The generic upstream failure: an [HTTPException] of status 500. *)
Definition upstream_error (e : Exn) : Prop :=
  exists message, e = HTTPException 500 message.

(** ** Reading a trace *)

Definition is_refresh (e : Event) : bool :=
  match e with PostTokenRefresh _ => true | _ => false end.

Definition is_followed (e : Event) : bool :=
  match e with GetStreamsFollowed _ _ => true | _ => false end.

Definition is_update (e : Event) : bool :=
  match e with AccountUpdate _ _ _ _ => true | _ => false end.

Definition count (p : Event -> bool) (l : list Event) : nat :=
  List.length (filter p l).

(** The row with a given id, as the store holds it. *)
Definition row (id : string) (rows : list Account.t) : option Account.t :=
  find (fun a => (Account.id a =? id)%string) rows.

(* ================================================================== *)
(** * A sample upstream *)

Module Sample.

Definition user (id login image : string) : UserData.t :=
  UserData.mk id login login "" "partner" "" image "" 0 "2020-01-01T00:00:00Z".

Definition stream (user_id login game title : string) (viewer_count : Z)
  : StreamData.t :=
  StreamData.mk ("s" ++ user_id) user_id login login "509658" game "live" title
                [] viewer_count "2026-01-01T00:00:00Z" "en" "" false.

Definition channel (id login game title : string) : ChannelData.t :=
  ChannelData.mk id login login "en" "509658" game title 0 [] [] false.

Definition found (id login : string) : SearchData.t :=
  SearchData.mk "en" login login "509658" "Chess" id true [] ("thumb-" ++ id)
                "from search" "2026-01-01T00:00:00Z".

Definition followed (user_id login : string) (viewer_count : Z)
  : FollowedStreamsData.t :=
  FollowedStreamsData.mk user_id login login "Chess" "followed live" "live"
                         viewer_count.

Definition answer {A : Type} (code : Z) (text : string) (b : A) (u : nat)
  : Response A * nat :=
  (mkResponse code text b, u).

(** The state counts the requests made for followed streams; the first
    [unauthorized] of them are answered 401. *)
Definition upstream (unauthorized : nat) : Upstream nat := {|
  helix_users := fun login _ =>
    if (login =? "alice")%string then answer 200 "OK" [user "1" "alice" "alice.png"]
    else if (login =? "bob")%string then answer 200 "OK" [user "2" "bob" "bob.png"]
    else if (login =? "carol")%string then answer 200 "OK" [user "3" "carol" "carol.png"]
    else if (login =? "broken")%string then answer 503 "Service Unavailable" []
    else answer 200 "OK" [];
  helix_streams := fun user_id _ =>
    if (user_id =? "1")%string then answer 200 "OK" [stream "1" "alice" "Chess" "live now" 120]
    else if (user_id =? "a")%string then answer 200 "OK" [stream "a" "ann" "Chess" "five" 5]
    else if (user_id =? "b")%string then answer 200 "OK" [stream "b" "ben" "Chess" "fifty" 50]
    else if (user_id =? "x")%string then answer 503 "Service Unavailable" []
    else answer 200 "OK" [];
  helix_search_channels := fun query _ =>
    if (query =? "chess")%string then answer 200 "OK" [found "a" "ann"; found "b" "ben"; found "c" "cy"]
    else if (query =? "flaky")%string then answer 200 "OK" [found "a" "ann"; found "x" "xi"; found "b" "ben"]
    else answer 200 "OK" [];
  helix_channels := fun broadcaster_id _ =>
    if (broadcaster_id =? "1")%string then answer 200 "OK" [channel "1" "alice" "Go" "last week"]
    else if (broadcaster_id =? "2")%string then answer 200 "OK" [channel "2" "bob" "Go" "offline title"]
    else answer 200 "OK" [];
  helix_streams_followed := fun user_id _ u =>
    if (u <? unauthorized)%nat then (mkResponse 401 "Unauthorized" [], S u)
    else if (user_id =? "77")%string
    then (mkResponse 200 "OK" [followed "1" "alice" 120; followed "9" "broken" 7], S u)
    else (mkResponse 200 "OK" [followed "1" "alice" 120], S u);
  oauth2_token_refresh := fun refresh_token =>
    if (refresh_token =? "revoked")%string then answer 400 "Bad Request" None
    else if (refresh_token =? "outage")%string then answer 503 "Service Unavailable" None
    else answer 200 "OK" (Some (TwitchTokenResponse.mk "at-new" "rt-new" 14400));
  date_now := fun u => (1700000000000, u);
  first_rejection := fun _ => O
|}.

Definition linked : Account.t :=
  Account.mk "row-1" "user-1" "42" "twitch" (Some "at-old") (Some "rt-old")
             (Some 1699999000000).

Definition world : World nat := mkWorld O [linked] [].

(** A credential with an hour's lifetime, and the answer that carries it. *)
Definition app_token : TokenCache.TwitchTokenResponse :=
  TokenCache.mkToken "app-token" 3600 "bearer".

Definition granted : Response TokenCache.TwitchTokenResponse :=
  mkResponse 200 "OK" app_token.

End Sample.

(* ================================================================== *)
(** * The rest of index.ts and middlewares/authMiddleware.ts *)

(** ** CORS (index.ts, lines 36-55) *)

Definition allowedOrigins : list string :=
  ["twitchoverlayapp://";
   "http://localhost:5173";
   "https://www.overwolf.com";
   "overwolf-extension://";
   "twitchoverlayappnative://"].

(** [s.startsWith(o)] *)
Definition startsWith (s o : string) : bool := String.prefix o s.

(** The [origin] callback given to [cors]: the origin to allow, or [null].
    [!origin] holds of the empty string. *)
Definition cors_origin (origin : string) : option string :=
  if (origin =? "")%string then None
  else if existsb (startsWith origin) allowedOrigins then Some origin
  else None.

(** ** The key of the rate limiter (index.ts, lines 76-96) *)

(** A value that may be missing, when it is truthy: a string is unless it is
    empty. *)
Definition truthy (x : option string) : option string :=
  match x with
  | Some EmptyString => None
  | Some v => Some v
  | None => None
  end.

(** What [keyGenerator] reads: the id of the session's user, when
    [auth.api.getSession] finds a session, and three request headers. *)
Record KeyInput : Type := mkKeyInput {
  session_user_id : option string;
  x_client_id : option string;
  x_forwarded_for : option string;
  x_real_ip : option string
}.

Definition keyGenerator (c : KeyInput) : string :=
  match truthy (session_user_id c) with
  | Some id => "user-" ++ id
  | None =>
      match truthy (x_client_id c) with
      | Some clientId => "client-" ++ clientId
      | None =>
          let ip := string_or (x_forwarded_for c)
                              (string_or (x_real_ip c) "unknown") in
          "ip-" ++ ip
      end
  end.

(** ** The session and authMiddleware *)

(** Of the user that better-auth puts in a session the code reads [id]
    only. *)
Module SessionUser.
Record t : Type := mk { id : string }.
End SessionUser.

(** index.ts, lines 103-117: what [auth.api.getSession] returns holds a user
    and a session record, of a type [S] the code does not look into; [user]
    is [null] without it, its user otherwise. *)
Definition session_user {S : Type} (session : option (SessionUser.t * S))
  : option SessionUser.t := option_map fst session.

(** middlewares/authMiddleware.ts: [next] runs only with a user. *)
Definition authMiddleware {U A : Type} (user : option SessionUser.t)
           (next : SessionUser.t -> M U A) : M U A :=
  match user with
  | None => throw AuthenticationError
  | Some user => next user
  end.

(** ** GET /channels/followed (index.ts, lines 143-173) *)

(** [prisma.account.findFirst] with [where: { userId, providerId:
    'twitch' }]. *)
Definition user_twitch_account (userId : string) (rows : list Account.t)
  : option Account.t :=
  find (fun a => (Account.userId a =? userId)%string
                 && (Account.providerId a =? "twitch")%string) rows.

(** The guard of lines 157-163: the account id and the access token when the
    row exists and both are truthy. *)
Definition linked_credentials (twitchAccount : option Account.t)
  : option (string * string) :=
  match twitchAccount with
  | None => None
  | Some a =>
      match truthy (Account.accessToken a), truthy (Some (Account.accountId a))
      with
      | Some accessToken, Some accountId => Some (accountId, accessToken)
      | _, _ => None
      end
  end.

(** The handler.  Its read of the store leaves no event: the trace keeps the
    requests to Twitch and what [fetchFollowedStreams] does to the store. *)
Definition channels_followed {U : Type} {twitch : Upstream U} (fuel : nat)
           (user : SessionUser.t) : M U (list Streamer) :=
  fun w =>
    match linked_credentials
            (user_twitch_account (SessionUser.id user) (accounts w)) with
    | None => throw (NotFoundError "User Twitch account not found") w
    | Some (accountId, accessToken) =>
        fetchFollowedStreams fuel accountId accessToken w
    end.

(** The route from the session on: the session middleware, authMiddleware,
    the handler. *)
Definition route_channels_followed {U S : Type} {twitch : Upstream U}
           (fuel : nat) (session : option (SessionUser.t * S))
  : M U (list Streamer) :=
  authMiddleware (session_user session) (channels_followed fuel).

(** ** GET /channels/:name and GET /streams/:name with their middleware *)

(** twitchTokenMiddleware, then the handler with the token the middleware
    put in the context; the handler does not run when the middleware
    throws. *)
Definition with_twitch_token {U A : Type} (c : TokenCache.Cache)
           (i : TokenCache.Invocation) (handler : string -> M U A)
  : TokenCache.Cache * M U A :=
  match TokenCache.twitchTokenMiddleware c i with
  | (c', TokenCache.FromCache twitch) =>
      (c', handler (TokenCache.access_token twitch))
  | (c', TokenCache.Fetched twitch) =>
      (c', handler (TokenCache.access_token twitch))
  | (c', TokenCache.Failed e) => (c', throw e)
  end.

Definition route_channels_name {U : Type} {twitch : Upstream U}
           (c : TokenCache.Cache) (i : TokenCache.Invocation) (name : string)
  : TokenCache.Cache * M U Streamer :=
  with_twitch_token c i (getChannel name).

Definition route_streams_name {U : Type} {twitch : Upstream U}
           (c : TokenCache.Cache) (i : TokenCache.Invocation) (name : string)
  : TokenCache.Cache * M U (list Streamer) :=
  with_twitch_token c i (searchStreams name).

(** ** More ways to read a trace and a result *)

(** The bearer token a Helix request carries. *)
Definition bearer_of (e : Event) : option string :=
  match e with
  | GetUsers _ bearer => Some bearer
  | GetStreams _ bearer => Some bearer
  | GetSearchChannels _ bearer => Some bearer
  | GetChannels _ bearer => Some bearer
  | GetStreamsFollowed _ bearer => Some bearer
  | _ => None
  end.

(** A Streamer made of the followed stream [x]; the profile image is the
    user's. *)
Definition followed_match (x : FollowedStreamsData.t) (s : Streamer) : Prop :=
  channelId s = FollowedStreamsData.user_id x
  /\ displayName s = FollowedStreamsData.user_name x
  /\ loginName s = FollowedStreamsData.user_login x
  /\ gameName s = FollowedStreamsData.game_name x
  /\ viewers s = FollowedStreamsData.viewer_count x
  /\ title s = FollowedStreamsData.title x
  /\ isLive s = true.

(** A Streamer made of the search result [x]; viewers and title are the
    stream's. *)
Definition search_match (x : SearchData.t) (s : Streamer) : Prop :=
  channelId s = SearchData.id x
  /\ loginName s = SearchData.broadcaster_login x
  /\ displayName s = SearchData.display_name x
  /\ profileImageUrl s = SearchData.thumbnail_url x
  /\ gameName s = SearchData.game_name x
  /\ isLive s = SearchData.is_live x.

(** The columns of a row that identify it. *)
Definition row_key (a : Account.t) : string * string * string * string :=
  (Account.id a, Account.userId a, Account.accountId a, Account.providerId a).

(** ** More sample data *)

Module Sample2.

(** A row whose refresh token the identity server has revoked, one without
    a refresh token, and one without an access token. *)
Definition revoked : Account.t :=
  Account.mk "row-2" "user-2" "43" "twitch" (Some "at-2") (Some "revoked")
             None.

Definition bare : Account.t :=
  Account.mk "row-3" "user-3" "44" "twitch" (Some "at-3") None None.

Definition unlinked : Account.t :=
  Account.mk "row-4" "user-4" "45" "twitch" None (Some "rt-4") None.

Definition world : World nat :=
  mkWorld O [Sample.linked; revoked; bare; unlinked] [].

Definition refused : Response TokenCache.TwitchTokenResponse :=
  mkResponse 503 "Service Unavailable" (TokenCache.mkToken "" 0 "").

(** A credential said to last about two months, and one said to last two
    minutes. *)
Definition long_lived : Response TokenCache.TwitchTokenResponse :=
  mkResponse 200 "OK" (TokenCache.mkToken "app-long" 5000000 "bearer").

Definition short_lived : Response TokenCache.TwitchTokenResponse :=
  mkResponse 200 "OK" (TokenCache.mkToken "app-short" 120 "bearer").

End Sample2.


(** A third sample: the account follows a channel whose user Helix does not
    know and a channel whose user request is refused; dave's stream request
    and erin's channel request are refused. *)
Module Sample3.

Definition upstream : Upstream nat := {|
  helix_users := fun login bearer =>
    if (login =? "dave")%string
    then Sample.answer 200 "OK" [Sample.user "x" "dave" "dave.png"]
    else if (login =? "erin")%string
    then Sample.answer 200 "OK" [Sample.user "y" "erin" "erin.png"]
    else helix_users (Upstream := Sample.upstream 0) login bearer;
  helix_streams := helix_streams (Upstream := Sample.upstream 0);
  helix_search_channels := fun query bearer =>
    if (query =? "outage")%string
    then Sample.answer 502 "Bad Gateway" []
    else helix_search_channels (Upstream := Sample.upstream 0) query bearer;
  helix_channels := fun broadcaster_id bearer =>
    if (broadcaster_id =? "y")%string
    then Sample.answer 503 "Service Unavailable" []
    else helix_channels (Upstream := Sample.upstream 0) broadcaster_id bearer;
  helix_streams_followed := fun _ _ u =>
    (mkResponse 200 "OK" [Sample.followed "8" "ghost" 3;
                          Sample.followed "9" "broken" 7], S u);
  oauth2_token_refresh := oauth2_token_refresh (Upstream := Sample.upstream 0);
  date_now := date_now (Upstream := Sample.upstream 0);
  first_rejection := fun _ => O
|}.

End Sample3.

(* ================================================================== *)
(** * The app-token cache: when it asks upstream *)

Module TokenCacheFacts.
Import TokenCache.

(** A run is served from the cache exactly when [lookup] finds the token. *)
Lemma middleware_hit (c : Cache) (i : Invocation) (tok : TwitchTokenResponse) :
  lookup c (currentTime i) = Some tok ->
  twitchTokenMiddleware c i = (c, FromCache tok).
Proof.
  intros Hl. unfold twitchTokenMiddleware. now rewrite Hl.
Qed.

Lemma middleware_miss (c : Cache) (i : Invocation) :
  lookup c (currentTime i) = None ->
  issues_request (snd (twitchTokenMiddleware c i)) = true.
Proof.
  intros Hl. unfold twitchTokenMiddleware. rewrite Hl.
  now destruct (negb (ok (response i))).
Qed.

Lemma issues_request_lookup (c : Cache) (i : Invocation) :
  issues_request (snd (twitchTokenMiddleware c i)) = true <->
  lookup c (currentTime i) = None.
Proof.
  split.
  - destruct (lookup c (currentTime i)) as [tok|] eqn:Hl; [|reflexivity].
    rewrite (middleware_hit _ _ _ Hl). discriminate.
  - apply middleware_miss.
Qed.

Lemma call_agrees (st : Cache * option AppCredential) (i : Invocation) :
  agrees st -> agrees (call st i).
Proof.
  destruct st as [c issued]. unfold call, twitchTokenMiddleware.
  destruct (lookup c (currentTime i)) as [tok|]; [trivial|].
  destruct (negb (ok (response i))); [trivial|].
  intros _. reflexivity.
Qed.

Lemma fold_call_agrees (l : list Invocation) :
  forall st, agrees st -> agrees (fold_left call l st).
Proof.
  induction l as [|i l IH]; intros st Hst; simpl; [assumption|].
  apply IH. now apply call_agrees.
Qed.

Lemma calls_agree (l : list Invocation) : agrees (calls l).
Proof.
  apply fold_call_agrees. reflexivity.
Qed.

(** On a cache that agrees with the credential [a], the lookup at a time
    that is not negative fails exactly when at most two buffers of validity
    remain. *)
Lemma lookup_agreeing (a : AppCredential) (now : Z) :
  0 <= now ->
  let c := mkCache (Some (credential a))
                   (Some (issuedAt a
                          + Z.min (ttlSeconds a * 1000) MAX_CACHE_DURATION
                          - EXPIRY_BUFFER)) in
  (lookup c now = None <-> remaining_validity a now <= 2 * EXPIRY_BUFFER)
  /\ (lookup c now <> None -> lookup c now = Some (credential a)).
Proof.
  intros Hnow c. unfold lookup, remaining_validity.
  cbn [c cachedToken tokenExpiryTime].
  set (e := issuedAt a + Z.min (ttlSeconds a * 1000) MAX_CACHE_DURATION
            - EXPIRY_BUFFER).
  assert (He : issuedAt a + Z.min (ttlSeconds a * 1000) MAX_CACHE_DURATION
               = e + EXPIRY_BUFFER) by (unfold e; lia).
  rewrite He. unfold EXPIRY_BUFFER.
  destruct (Z.eqb_spec e 0) as [H0|H0];
    destruct (Z.ltb_spec now (e - 60 * 1000)) as [Hlt|Hge];
    cbn [negb andb]; split; try congruence; split;
      try reflexivity; try discriminate; lia.
Qed.

(** C3, as amended.  After any sequence of calls made one after the other,
    a call at a time that is not negative sends a request to the token
    endpoint if and only if no credential has been stored, or the stored
    credential (lifetime as reported, capped at 24 hours, counted from the
    moment it was stored) has at most 120 seconds of validity left: the
    60-second buffer is taken off when the expiry is stored and once more when
    it is compared.  Otherwise the cached credential is returned, the cache is
    left as it was and nothing is sent upstream. *)
Theorem refresh_iff_due (l : list Invocation) (i : Invocation) :
  0 <= currentTime i ->
  (issues_request (snd (twitchTokenMiddleware (fst (calls l)) i)) = true
   <-> refresh_due (snd (calls l)) (currentTime i))
  /\ (forall a, snd (calls l) = Some a ->
        ~ refresh_due (snd (calls l)) (currentTime i) ->
        twitchTokenMiddleware (fst (calls l)) i
        = (fst (calls l), FromCache (credential a))).
Proof.
  intros Hnow. pose proof (calls_agree l) as Hag. unfold agrees in Hag.
  rewrite issues_request_lookup.
  destruct (snd (calls l)) as [a|] eqn:Hsnd.
  - rewrite Hag. destruct (lookup_agreeing a (currentTime i) Hnow) as [Hiff Hsome].
    split; [exact Hiff|].
    intros a' Ha' Hnot. injection Ha' as <-.
    apply middleware_hit. apply Hsome. intro Hnone.
    apply Hnot. simpl. now apply Hiff.
  - rewrite Hag. split; [|discriminate].
    split; [intros _; exact I|reflexivity].
Qed.

(** The amended statement at work: a credential stored with an hour's
    lifetime is still served 121 seconds before its end. *)
Lemma refresh_iff_due_witness :
  0 <= 1700003479000 /\
  twitchTokenMiddleware
    (fst (calls [mkInvocation 1700000000000 Sample.granted 1700000000000]))
    (mkInvocation 1700003479000 Sample.granted 1700003479000)
  = (fst (calls [mkInvocation 1700000000000 Sample.granted 1700000000000]),
     FromCache Sample.app_token).
Proof.
  split; [lia|].
  apply (proj2 (refresh_iff_due
                  [mkInvocation 1700000000000 Sample.granted 1700000000000]
                  (mkInvocation 1700003479000 Sample.granted 1700003479000)
                  ltac:(simpl; lia))
               (mkCredential 1700000000000 3600 Sample.app_token)).
  - reflexivity.
  - vm_compute. intro H. apply H. reflexivity.
Defined.

(** C3 as it is written fails: with 90 seconds of validity left, which is
    not below the 60-second buffer, the cached credential is not served and a
    request goes upstream. *)
Lemma refresh_before_buffer :
  let l := [mkInvocation 1700000000000 Sample.granted 1700000000000] in
  let i := mkInvocation 1700003510000 Sample.granted 1700003510000 in
  remaining_validity (mkCredential 1700000000000 3600 Sample.app_token)
                     (currentTime i) = 90000
  /\ ~ (issues_request (snd (twitchTokenMiddleware (fst (calls l)) i)) = true
        <-> spec_refresh_due (snd (calls l)) (currentTime i)).
Proof.
  split; [reflexivity|].
  intros [Hcode _]. specialize (Hcode eq_refl).
  vm_compute in Hcode. discriminate.
Qed.

(** ** Overlapping calls *)

Lemma run_arrivals (nows : list Z) :
  forall s : Sys,
    (forall now, In now nows -> lookup (cache s) now = None) ->
    run s (map Arrive nows)
    = mkSys (cache s) (in_flight s + List.length nows)
            (issued_total s + List.length nows).
Proof.
  unfold run.
  induction nows as [|now nows IH]; intros s Hmiss; simpl.
  - rewrite !Nat.add_0_r. now destruct s.
  - rewrite (Hmiss now (or_introl eq_refl)).
    rewrite IH by (intros n Hn; apply Hmiss; now right).
    simpl. f_equal; lia.
Qed.

Lemma lookup_store (data : TwitchTokenResponse) (t now : Z) :
  0 <= now ->
  now < t + Z.min (expires_in data * 1000) MAX_CACHE_DURATION
        - 2 * EXPIRY_BUFFER ->
  lookup (store data t) now = Some data.
Proof.
  intros Hnow Hlt. unfold lookup, store. cbn [cachedToken tokenExpiryTime].
  set (e := t + Z.min (expires_in data * 1000) MAX_CACHE_DURATION
            - EXPIRY_BUFFER).
  assert (He : now < e - EXPIRY_BUFFER) by (unfold e; lia).
  unfold EXPIRY_BUFFER in *.
  destruct (Z.eqb_spec e 0) as [H0|H0]; [lia|].
  destruct (Z.ltb_spec now (e - 60 * 1000)); [reflexivity|lia].
Qed.

(** C2, as amended.  The middleware has no single-flight guard: every call
    that finds the cache empty or expired sends its own request to the token
    endpoint, whether or not another one is awaiting its answer, so that n
    such calls arriving before any answer leave n requests in flight.  Only a
    call that arrives after an answer has been stored, and while the stored
    credential has more than 120 seconds left, is served from the cache
    without a request. *)
Theorem each_caller_fetches (c : Cache) (nows : list Z) :
  (forall now, In now nows -> lookup c now = None) ->
  in_flight (run (idle c) (map Arrive nows)) = List.length nows
  /\ issued_total (run (idle c) (map Arrive nows)) = List.length nows
  /\ (forall r t now,
        nows <> [] -> ok r = true -> 0 <= now ->
        now < t + Z.min (expires_in (body r) * 1000) MAX_CACHE_DURATION
              - 2 * EXPIRY_BUFFER ->
        let s := step (run (idle c) (map Arrive nows)) (Settle r t) in
        in_flight s = pred (List.length nows) /\ step s (Arrive now) = s).
Proof.
  intros Hmiss. rewrite (run_arrivals nows (idle c) Hmiss). simpl.
  split; [reflexivity|]. split; [reflexivity|].
  intros r t now Hne Hok Hnow Hlt.
  destruct nows as [|n0 nows]; [congruence|].
  simpl. rewrite Hok. simpl. split; [reflexivity|].
  now rewrite (lookup_store (body r) t now Hnow Hlt).
Qed.

Lemma each_caller_fetches_witness :
  in_flight (run (idle initial)
                 (map Arrive [1700000000000; 1700000000001; 1700000000002]))
  = 3%nat.
Proof.
  apply (each_caller_fetches
           initial [1700000000000; 1700000000001; 1700000000002]).
  intros now _. reflexivity.
Defined.

(** C2 as it is written fails: two calls that arrive while the cache is
    empty leave two requests to the token endpoint in flight. *)
Lemma two_requests_in_flight :
  ~ (in_flight (run (idle initial) [Arrive 1700000000000; Arrive 1700000000001])
     <= 1)%nat.
Proof.
  vm_compute. lia.
Qed.

End TokenCacheFacts.

(* ================================================================== *)
(** * The Helix client: what each call does to the world *)

Section ClientFacts.
Context {U : Type} {twitch : Upstream U}.

Lemma fetchUserData_run (loginName accessToken : string) (w : World U) :
  fetchUserData loginName accessToken w =
  let (r, u') := helix_users loginName accessToken (outside w) in
  (if ok r then Returned (hd_error (body r))
   else Thrown (HTTPException 500
                  ("Failed to fetch User Data for " ++ loginName)),
   after w u' [GetUsers loginName accessToken]).
Proof.
  unfold fetchUserData, bind, fetch, after.
  destruct (helix_users loginName accessToken (outside w)) as [r u'].
  now destruct (ok r).
Qed.

Lemma fetchStreamData_run (userId accessToken : string) (w : World U) :
  fetchStreamData userId accessToken w =
  let (r, u') := helix_streams userId accessToken (outside w) in
  (if ok r then Returned (hd_error (body r))
   else Thrown (HTTPException 500
                  ("Failed to fetch Stream Data for " ++ userId)),
   after w u' [GetStreams userId accessToken]).
Proof.
  unfold fetchStreamData, bind, fetch, after.
  destruct (helix_streams userId accessToken (outside w)) as [r u'].
  now destruct (ok r).
Qed.

Lemma fetchChannelData_run (userId accessToken : string) (w : World U) :
  fetchChannelData userId accessToken w =
  let (r, u') := helix_channels userId accessToken (outside w) in
  (if ok r then Returned (hd_error (body r))
   else Thrown (HTTPException 500
                  ("Failed to fetch Channel Data for " ++ userId)),
   after w u' [GetChannels userId accessToken]).
Proof.
  unfold fetchChannelData, bind, fetch, after.
  destruct (helix_channels userId accessToken (outside w)) as [r u'].
  now destruct (ok r).
Qed.

Lemma refreshAccessToken_run (refreshToken : string) (w : World U) :
  refreshAccessToken refreshToken w =
  let (r, u') := oauth2_token_refresh refreshToken (outside w) in
  (if ok r then Returned (body r)
   else if status r =? 400 then Thrown (HTTPException 400 "INVALID_TOKEN")
   else Thrown (HTTPException 500
                  ("Failed to refresh Access Token: "
                     ++ string_of_Z (status r) ++ " " ++ statusText r)),
   after w u' [PostTokenRefresh refreshToken]).
Proof.
  unfold refreshAccessToken, bind, fetch, after.
  destruct (oauth2_token_refresh refreshToken (outside w)) as [r u'].
  destruct (ok r); [reflexivity|]. simpl.
  now destruct (status r =? 400).
Qed.

Lemma after_after (w : World U) (u1 u2 : U) (e1 e2 : list Event) :
  after (after w u1 e1) u2 e2 = after w u2 (e1 ++ e2).
Proof.
  unfold after. simpl. now rewrite <- app_assoc.
Qed.

(** ** getChannel *)

(** C5.  When the user lookup and the stream lookup each return a record,
    the Streamer is built from the user and the stream: viewers is the
    stream's viewer count, isLive says whether the stream's type is "live",
    title and gameName are the stream's.  Two requests are made, for the
    user and for the stream; the channel endpoint is not asked. *)
Theorem getChannel_live
        (name access_token : string) (w : World U)
        (r1 : Response (list UserData.t)) (u1 : U)
        (userData : UserData.t) (users : list UserData.t)
        (r2 : Response (list StreamData.t)) (u2 : U)
        (streamData : StreamData.t) (streams : list StreamData.t) :
  helix_users name access_token (outside w) = (r1, u1) ->
  ok r1 = true ->
  body r1 = userData :: users ->
  helix_streams (UserData.id userData) access_token u1 = (r2, u2) ->
  ok r2 = true ->
  body r2 = streamData :: streams ->
  getChannel name access_token w =
  (Returned {| channelId := UserData.id userData;
               displayName := UserData.display_name userData;
               loginName := UserData.login userData;
               profileImageUrl := UserData.profile_image_url userData;
               title := StreamData.title streamData;
               gameName := StreamData.game_name streamData;
               viewers := StreamData.viewer_count streamData;
               isLive := (StreamData.type streamData =? "live")%string |},
   after w u2 [GetUsers name access_token;
               GetStreams (UserData.id userData) access_token]).
Proof.
  intros Hu Hok1 Hb1 Hs Hok2 Hb2.
  unfold getChannel, bind.
  rewrite fetchUserData_run, Hu, Hok1, Hb1. cbn [hd_error].
  rewrite fetchStreamData_run. cbn [after outside].
  rewrite Hs, Hok2, Hb2. cbn [hd_error].
  unfold ret. now rewrite after_after.
Qed.

(** C6.  When the user lookup returns a record, the stream lookup none and
    the channel lookup a record, the Streamer has viewers 0 and isLive
    false, and its title and gameName are the channel's. *)
Theorem getChannel_offline
        (name access_token : string) (w : World U)
        (r1 : Response (list UserData.t)) (u1 : U)
        (userData : UserData.t) (users : list UserData.t)
        (r2 : Response (list StreamData.t)) (u2 : U)
        (r3 : Response (list ChannelData.t)) (u3 : U)
        (channelData : ChannelData.t) (channels : list ChannelData.t) :
  helix_users name access_token (outside w) = (r1, u1) ->
  ok r1 = true ->
  body r1 = userData :: users ->
  helix_streams (UserData.id userData) access_token u1 = (r2, u2) ->
  ok r2 = true ->
  body r2 = [] ->
  helix_channels (UserData.id userData) access_token u2 = (r3, u3) ->
  ok r3 = true ->
  body r3 = channelData :: channels ->
  getChannel name access_token w =
  (Returned {| channelId := UserData.id userData;
               displayName := UserData.display_name userData;
               loginName := UserData.login userData;
               profileImageUrl := UserData.profile_image_url userData;
               title := ChannelData.title channelData;
               gameName := ChannelData.game_name channelData;
               viewers := 0;
               isLive := false |},
   after w u3 [GetUsers name access_token;
               GetStreams (UserData.id userData) access_token;
               GetChannels (UserData.id userData) access_token]).
Proof.
  intros Hu Hok1 Hb1 Hs Hok2 Hb2 Hc Hok3 Hb3.
  unfold getChannel, bind.
  rewrite fetchUserData_run, Hu, Hok1, Hb1. cbn [hd_error].
  rewrite fetchStreamData_run. cbn [after outside].
  rewrite Hs, Hok2, Hb2. cbn [hd_error].
  rewrite fetchChannelData_run. cbn [after outside].
  rewrite Hc, Hok3, Hb3. cbn [hd_error].
  unfold ret. now rewrite !after_after.
Qed.

(** C7.  When the user lookup succeeds with no record, the call fails with
    NotFound (404); it fails with NotFound as well when the user is found
    and the stream lookup and the channel lookup both succeed with no
    record. *)
Theorem getChannel_not_found
        (name access_token : string) (w : World U)
        (r1 : Response (list UserData.t)) (u1 : U) :
  helix_users name access_token (outside w) = (r1, u1) ->
  ok r1 = true ->
  (body r1 = [] ->
   getChannel name access_token w =
   (Thrown (NotFoundError "Channel not found"),
    after w u1 [GetUsers name access_token]))
  /\ (forall userData users r2 u2 r3 u3,
        body r1 = userData :: users ->
        helix_streams (UserData.id userData) access_token u1 = (r2, u2) ->
        ok r2 = true -> body r2 = [] ->
        helix_channels (UserData.id userData) access_token u2 = (r3, u3) ->
        ok r3 = true -> body r3 = [] ->
        getChannel name access_token w =
        (Thrown (NotFoundError "Channel not found"),
         after w u3 [GetUsers name access_token;
                     GetStreams (UserData.id userData) access_token;
                     GetChannels (UserData.id userData) access_token])).
Proof.
  intros Hu Hok1. split.
  - intros Hb1. unfold getChannel, bind.
    now rewrite fetchUserData_run, Hu, Hok1, Hb1.
  - intros userData users r2 u2 r3 u3 Hb1 Hs Hok2 Hb2 Hc Hok3 Hb3.
    unfold getChannel, bind.
    rewrite fetchUserData_run, Hu, Hok1, Hb1. cbn [hd_error].
    rewrite fetchStreamData_run. cbn [after outside].
    rewrite Hs, Hok2, Hb2. cbn [hd_error].
    rewrite fetchChannelData_run. cbn [after outside].
    rewrite Hc, Hok3, Hb3. cbn [hd_error].
    unfold throw. now rewrite !after_after.
Qed.

(** C9.  A 400 from the token endpoint makes the refresh fail with the
    exception of status 400 and message INVALID_TOKEN, never with the one of
    status 500; every other answer outside 2xx makes it fail with an
    exception of status 500. *)
Theorem refreshAccessToken_failures
        (refreshToken : string) (w : World U)
        (r : Response (option TwitchTokenResponse.t)) (u' : U) :
  oauth2_token_refresh refreshToken (outside w) = (r, u') ->
  (status r = 400 ->
   fst (refreshAccessToken refreshToken w)
   = Thrown (HTTPException 400 "INVALID_TOKEN")
   /\ forall message,
        fst (refreshAccessToken refreshToken w)
        <> Thrown (HTTPException 500 message))
  /\ (ok r = false -> status r <> 400 ->
      exists message,
        fst (refreshAccessToken refreshToken w)
        = Thrown (HTTPException 500 message)).
Proof.
  intros Hr. rewrite refreshAccessToken_run, Hr. cbn [fst]. split.
  - intros H400. unfold ok. rewrite H400. simpl.
    split; [reflexivity|]. intros message. discriminate.
  - intros Hok Hne. rewrite Hok.
    destruct (Z.eqb_spec (status r) 400) as [E|_]; [contradiction|].
    eexists. reflexivity.
Qed.

End ClientFacts.

(* ================================================================== *)
(** * Sorting by viewers *)

Lemma insert_sorted_perm {A : Type} (compareFn : A -> A -> Z) (a : A)
      (l : list A) :
  Permutation (a :: l) (insert_sorted compareFn a l).
Proof.
  induction l as [|b l IH]; simpl; [apply Permutation_refl|].
  destruct (compareFn a b <=? 0); [apply Permutation_refl|].
  eapply Permutation_trans; [apply perm_swap|]. now apply perm_skip.
Qed.

Lemma Array_sort_perm {A : Type} (compareFn : A -> A -> Z) (l : list A) :
  Permutation l (Array_sort compareFn l).
Proof.
  induction l as [|a l IH]; simpl; [constructor|].
  eapply Permutation_trans; [|apply insert_sorted_perm]. now apply perm_skip.
Qed.

Lemma insert_sorted_HdRel (a b : Streamer) (l : list Streamer) :
  no_fewer_viewers b a -> HdRel no_fewer_viewers b l ->
  HdRel no_fewer_viewers b (insert_sorted by_viewers_desc a l).
Proof.
  intros Hba Hhd. destruct l as [|c l]; simpl; [now constructor|].
  destruct (by_viewers_desc a c <=? 0); constructor; trivial.
  now inversion Hhd.
Qed.

Lemma insert_sorted_Sorted (a : Streamer) (l : list Streamer) :
  Sorted no_fewer_viewers l ->
  Sorted no_fewer_viewers (insert_sorted by_viewers_desc a l).
Proof.
  induction l as [|b l IH]; intros Hs; simpl.
  - repeat constructor.
  - inversion Hs as [|? ? Hl Hhd]; subst.
    destruct (Z.leb_spec (by_viewers_desc a b) 0) as [Hle|Hgt].
    + constructor; [assumption|]. constructor.
      unfold no_fewer_viewers, by_viewers_desc in *. lia.
    + constructor; [now apply IH|].
      apply insert_sorted_HdRel; [|assumption].
      unfold no_fewer_viewers, by_viewers_desc in *. lia.
Qed.

Lemma Array_sort_Sorted (l : list Streamer) :
  Sorted no_fewer_viewers (Array_sort by_viewers_desc l).
Proof.
  induction l as [|a l IH]; simpl; [constructor|].
  now apply insert_sorted_Sorted.
Qed.

(* ================================================================== *)
(** * The fan-outs *)



Lemma nth_or_head {A : Type} (k : nat) (e : A) (es : list A) :
  In (nth k (e :: es) e) (e :: es).
Proof.
  destruct (Nat.lt_ge_cases k (List.length (e :: es))) as [Hlt|Hge].
  - now apply nth_In.
  - rewrite nth_overflow by assumption. now left.
Qed.


Section SearchFacts.
Context {U : Type} {twitch : Upstream U}.

Lemma search_item_run (accessToken : string) (x : SearchData.t)
      (w : World U) :
  search_item accessToken x w =
  let (r, u') := helix_streams (SearchData.id x) accessToken (outside w) in
  (if ok r then
     Returned
       {| channelId := SearchData.id x;
          loginName := SearchData.broadcaster_login x;
          displayName := SearchData.display_name x;
          profileImageUrl := SearchData.thumbnail_url x;
          gameName := SearchData.game_name x;
          viewers := number_or (option_map StreamData.viewer_count
                                           (hd_error (body r))) 0;
          isLive := SearchData.is_live x;
          title := string_or (option_map StreamData.title
                                         (hd_error (body r))) "" |}
   else Thrown (HTTPException 500
                  ("Failed to fetch Stream Data for " ++ SearchData.id x)),
   after w u' [GetStreams (SearchData.id x) accessToken]).
Proof.
  unfold search_item, bind. rewrite fetchStreamData_run.
  destruct (helix_streams (SearchData.id x) accessToken (outside w)) as [r u'].
  now destruct (ok r).
Qed.


Lemma searchStreams_run (searchQuery accessToken : string) (w : World U) :
  searchStreams searchQuery accessToken w =
  let (r, u1) := helix_search_channels searchQuery accessToken (outside w) in
  let w1 := after w u1 [GetSearchChannels searchQuery accessToken] in
  if ok r then
    match Promise_all (map (search_item accessToken) (body r)) w1 with
    | (Returned streamers, w2) =>
        (Returned (Array_sort by_viewers_desc streamers), w2)
    | (Thrown e, w2) => (Thrown e, w2)
    | (OutOfFuel, w2) => (OutOfFuel, w2)
    end
  else (Thrown (HTTPException 500 "Failed to fetch Streams"), w1).
Proof.
  unfold searchStreams, bind, fetch, after.
  destruct (helix_search_channels searchQuery accessToken (outside w))
    as [r u1].
  now destruct (ok r).
Qed.

(** C8.  The list a successful search returns is in descending order of
    viewers: of two neighbours the earlier has no fewer viewers than the
    later.  Streamers with 5, 50 and 0 viewers, in that order, come out as
    50, 5, 0. *)
Theorem searchStreams_sorted
        (searchQuery accessToken : string) (w w' : World U)
        (streamers : list Streamer) :
  searchStreams searchQuery accessToken w = (Returned streamers, w') ->
  Sorted no_fewer_viewers streamers
  /\ (forall a b c : Streamer,
        viewers a = 5 -> viewers b = 50 -> viewers c = 0 ->
        Array_sort by_viewers_desc [a; b; c] = [b; a; c]).
Proof.
  intros Hrun. split.
  - rewrite searchStreams_run in Hrun.
    destruct (helix_search_channels searchQuery accessToken (outside w))
      as [r u1].
    destruct (ok r); [|discriminate]. cbv zeta in Hrun.
    destruct (Promise_all (map (search_item accessToken) (body r)) _)
      as [[l| |] w2]; try discriminate.
    injection Hrun as <- _. apply Array_sort_Sorted.
  - intros a b c Ha Hb Hc. cbn [Array_sort insert_sorted].
    unfold by_viewers_desc. rewrite Hc, Hb. cbn [insert_sorted Z.sub Z.add Z.opp Z.leb Z.compare].
    rewrite Ha, Hb, Hc. reflexivity.
Qed.


End SearchFacts.

(* ================================================================== *)
(** * Followed streams and the refresh of the user token *)

Lemma count_app (p : Event -> bool) (l1 l2 : list Event) :
  count p (l1 ++ l2) = (count p l1 + count p l2)%nat.
Proof.
  unfold count. now rewrite filter_app, length_app.
Qed.

Lemma count_users (p : Event -> bool) (accessToken : string)
      (l : list FollowedStreamsData.t) :
  (forall login bearer, p (GetUsers login bearer) = false) ->
  count p (map (fun x => GetUsers (FollowedStreamsData.user_login x) accessToken)
               l) = 0%nat.
Proof.
  intros Hp. unfold count. induction l as [|x l IH]; simpl; [reflexivity|].
  now rewrite Hp.
Qed.

Lemma fulfilled_settled {A : Type} (os : list (Outcome A)) :
  Forall (fun o => o <> OutOfFuel) os -> rejections os = [] ->
  fulfilled os <> None.
Proof.
  induction os as [|o os IH]; intros Hall Hrej; simpl; [discriminate|].
  inversion Hall as [|? ? Ho Hos]; subst.
  destruct o as [a|e|]; simpl in *; [|discriminate|congruence].
  destruct (fulfilled os); [discriminate|]. now apply IH.
Qed.

Lemma find_existsb (p : Account.t -> bool)
      (rows : list Account.t) (a : Account.t) :
  find p rows = Some a ->
  existsb (fun b => (Account.id b =? Account.id a)%string) rows = true.
Proof.
  intros Hf. apply find_some in Hf. destruct Hf as [Hin _].
  apply existsb_exists. exists a. split; [assumption|apply String.eqb_refl].
Qed.

Lemma usable_refresh_token_found (found : option Account.t) (a : Account.t)
      (rt : string) :
  usable_refresh_token found = Some (a, rt) ->
  found = Some a /\ Account.refreshToken a = Some rt /\ rt <> "".
Proof.
  unfold usable_refresh_token. destruct found as [a0|]; [|discriminate].
  destruct (Account.refreshToken a0) as [[|c s]|] eqn:Hrt; try discriminate.
  intros [= <- <-]. repeat split; [assumption|discriminate].
Qed.

Section FollowedFacts.
Context {U : Type} {twitch : Upstream U}.

Lemma followed_item_run (userAccessToken : string)
      (x : FollowedStreamsData.t) (w : World U) :
  followed_item userAccessToken x w =
  let (r, u') := helix_users (FollowedStreamsData.user_login x)
                             userAccessToken (outside w) in
  (if ok r then
     match hd_error (body r) with
     | Some userData =>
         Returned
           {| channelId := FollowedStreamsData.user_id x;
              displayName := FollowedStreamsData.user_name x;
              loginName := FollowedStreamsData.user_login x;
              profileImageUrl := UserData.profile_image_url userData;
              gameName := FollowedStreamsData.game_name x;
              viewers := FollowedStreamsData.viewer_count x;
              isLive := true;
              title := FollowedStreamsData.title x |}
     | None =>
         Thrown (TypeError
           "Cannot read properties of undefined (reading 'profile_image_url')")
     end
   else Thrown (HTTPException 500
                  ("Failed to fetch User Data for "
                     ++ FollowedStreamsData.user_login x)),
   after w u' [GetUsers (FollowedStreamsData.user_login x) userAccessToken]).
Proof.
  unfold followed_item, bind. rewrite fetchUserData_run.
  destruct (helix_users (FollowedStreamsData.user_login x) userAccessToken
                        (outside w)) as [r u'].
  destruct (ok r); [|reflexivity]. now destruct (hd_error (body r)).
Qed.

(** What the fan-out over the followed streams leaves behind: one user
    request per stream, an untouched store, promises that all settle, and
    rejections that reach the client as a 500. *)
Lemma followed_settle (userAccessToken : string)
      (l : list FollowedStreamsData.t) :
  forall w : World U,
    let res := settle_all (map (followed_item userAccessToken) l) w in
    trace (snd res)
    = (trace w
         ++ map (fun x => GetUsers (FollowedStreamsData.user_login x)
                                   userAccessToken) l)%list
    /\ accounts (snd res) = accounts w
    /\ Forall (fun o => o <> OutOfFuel) (fst res)
    /\ Forall (fun e => upstream_error e \/ exists message, e = TypeError message)
              (rejections (fst res)).
Proof.
  induction l as [|x l IH]; intros w; cbn [map settle_all].
  - cbn. rewrite app_nil_r. repeat split; constructor.
  - rewrite followed_item_run.
    destruct (helix_users (FollowedStreamsData.user_login x) userAccessToken
                          (outside w)) as [r u'].
    set (w1 := after w u' [GetUsers (FollowedStreamsData.user_login x)
                                    userAccessToken]).
    specialize (IH w1). cbv zeta in IH.
    destruct (settle_all (map (followed_item userAccessToken) l) w1)
      as [os w2].
    cbn [fst snd] in *. destruct IH as (Htr & Hacc & Hset & Hrej).
    split; [|split; [|split]].
    + rewrite Htr. unfold w1, after. cbn [trace].
      now rewrite <- app_assoc.
    + now rewrite Hacc.
    + constructor; [|assumption].
      destruct (ok r); [|discriminate].
      destruct (hd_error (body r)); discriminate.
    + destruct (ok r); [destruct (hd_error (body r))|];
        cbn [rejections]; try assumption; constructor; try assumption.
      * right. eexists. reflexivity.
      * left. eexists. reflexivity.
Qed.

Lemma Promise_all_followed (userAccessToken : string)
      (l : list FollowedStreamsData.t) (w : World U) :
  let res := Promise_all (map (followed_item userAccessToken) l) w in
  fst res <> OutOfFuel
  /\ trace (snd res)
     = (trace w
          ++ map (fun x => GetUsers (FollowedStreamsData.user_login x)
                                    userAccessToken) l)%list.
Proof.
  cbv zeta. unfold Promise_all.
  pose proof (followed_settle userAccessToken l w) as Hs. cbv zeta in Hs.
  destruct (settle_all (map (followed_item userAccessToken) l) w) as [os w'].
  cbn [fst snd] in Hs. destruct Hs as (Htr & _ & Hset & _).
  destruct (rejections os) as [|e es] eqn:Hrej.
  - pose proof (fulfilled_settled os Hset Hrej) as Hf.
    destruct (fulfilled os); [|congruence]. split; [discriminate|exact Htr].
  - split; [discriminate|exact Htr].
Qed.

(** A call whose request is answered with anything but 401 does not call
    itself. *)
Lemma fetchFollowedStreams_answered
      (fuel : nat) (accountId userAccessToken : string) (w : World U)
      (r : Response (list FollowedStreamsData.t)) (u1 : U) :
  helix_streams_followed accountId userAccessToken (outside w) = (r, u1) ->
  status r <> 401 ->
  fetchFollowedStreams (S fuel) accountId userAccessToken w =
  let w1 := after w u1 [GetStreamsFollowed accountId userAccessToken] in
  if ok r then
    Promise_all (map (followed_item userAccessToken) (body r)) w1
  else
    (Thrown (HTTPException 500
               ("Failed to fetch Followed Channels for " ++ accountId
                  ++ ": " ++ string_of_Z (status r) ++ " " ++ statusText r)),
     w1).
Proof.
  intros Hf Hne. cbn [fetchFollowedStreams]. unfold bind at 1, fetch.
  rewrite Hf. destruct (ok r); [reflexivity|]. cbn [negb].
  destruct (Z.eqb_spec (status r) 401) as [E|_]; [contradiction|].
  reflexivity.
Qed.

(** A call whose request is answered 401, with a refresh token in the store
    and a refresh that succeeds, goes on as the same call with the new
    access token, in the world [after_refresh] describes. *)
Lemma fetchFollowedStreams_refreshes
      (fuel : nat) (accountId userAccessToken : string) (w : World U)
      (r1 : Response (list FollowedStreamsData.t)) (u1 : U)
      (account : Account.t) (refreshToken : string)
      (r2 : Response (option TwitchTokenResponse.t)) (u2 : U)
      (twitchData : TwitchTokenResponse.t) (now : Z) (u3 : U) :
  helix_streams_followed accountId userAccessToken (outside w) = (r1, u1) ->
  status r1 = 401 ->
  usable_refresh_token (twitch_account accountId (accounts w))
  = Some (account, refreshToken) ->
  oauth2_token_refresh refreshToken u1 = (r2, u2) ->
  ok r2 = true ->
  body r2 = Some twitchData ->
  date_now u2 = (now, u3) ->
  fetchFollowedStreams (S fuel) accountId userAccessToken w =
  fetchFollowedStreams
    fuel accountId (TwitchTokenResponse.access_token twitchData)
    (after_refresh w u3 accountId userAccessToken refreshToken account
                   twitchData now).
Proof.
  intros Hf H401 Hrt Hr Hok Hb Hnow.
  cbn [fetchFollowedStreams]. unfold bind at 1, fetch. rewrite Hf.
  unfold ok at 1. rewrite H401. cbn [Z.leb Z.compare Pos.compare
    Pos.compare_cont andb negb Z.eqb Pos.eqb].
  unfold bind at 1, account_findFirst. cbn [outside accounts trace].
  rewrite Hrt. unfold bind at 1. rewrite refreshAccessToken_run.
  cbn [outside]. rewrite Hr, Hok, Hb.
  unfold bind at 1, Date_now, after. cbn [outside accounts trace].
  rewrite Hnow. unfold bind at 1, account_update. cbn [outside accounts trace].
  destruct (usable_refresh_token_found _ _ _ Hrt) as (Hfound & _ & _).
  unfold twitch_account in Hfound.
  rewrite (find_existsb _ _ _ Hfound).
  unfold after_refresh. cbv zeta. rewrite <- !app_assoc. reflexivity.
Qed.

End FollowedFacts.

Section RefreshProtocol.
Context {U : Type} {twitch : Upstream U}.

Variables (fuel : nat) (accountId userAccessToken : string) (w : World U).
Variables (r1 : Response (list FollowedStreamsData.t)) (u1 : U).
Variables (account : Account.t) (refreshToken : string).
Variables (r2 : Response (option TwitchTokenResponse.t)) (u2 : U).
Variables (twitchData : TwitchTokenResponse.t) (now : Z) (u3 : U).

(** The request for followed streams is answered 401, the store has a
    refresh token for the account, and the refresh succeeds. *)
Hypothesis unauthorized :
  helix_streams_followed accountId userAccessToken (outside w) = (r1, u1).
Hypothesis unauthorized_401 : status r1 = 401.
Hypothesis stored :
  usable_refresh_token (twitch_account accountId (accounts w))
  = Some (account, refreshToken).
Hypothesis refreshed : oauth2_token_refresh refreshToken u1 = (r2, u2).
Hypothesis refreshed_ok : ok r2 = true.
Hypothesis refreshed_body : body r2 = Some twitchData.
Hypothesis clock : date_now u2 = (now, u3).

Let new_token := TwitchTokenResponse.access_token twitchData.
Let w' := after_refresh w u3 accountId userAccessToken refreshToken account
                        twitchData now.

(** C1, as amended.  A call answered 401, at whatever depth of the
    recursion, makes one refresh and then runs again with the new access
    token.  When that retried call is answered with anything but 401, the
    whole call has made exactly one refresh and two requests for followed
    streams (the original and one retry) and ends as the retried call
    does.  The source sets no bound of its own: a 401 on the retried call
    is again a call answered 401. *)
Theorem one_refresh_per_401 :
  fetchFollowedStreams (S fuel) accountId userAccessToken w
  = fetchFollowedStreams fuel accountId new_token w'
  /\ forall (r3 : Response (list FollowedStreamsData.t)) (u4 : U),
       helix_streams_followed accountId new_token u3 = (r3, u4) ->
       status r3 <> 401 ->
       let result :=
         fetchFollowedStreams (S (S fuel)) accountId userAccessToken w in
       result = fetchFollowedStreams 1 accountId new_token w'
       /\ fst result <> OutOfFuel
       /\ count is_refresh (trace (snd result))
          = (count is_refresh (trace w) + 1)%nat
       /\ count is_followed (trace (snd result))
          = (count is_followed (trace w) + 2)%nat.
Proof.
  split.
  - now apply (fetchFollowedStreams_refreshes fuel) with (r1 := r1) (u1 := u1)
      (r2 := r2) (u2 := u2).
  - intros r3 u4 Hretry Hne result. unfold result.
    rewrite (fetchFollowedStreams_refreshes
               (S fuel) accountId userAccessToken w r1 u1 account refreshToken
               r2 u2 twitchData now u3) by assumption.
    fold new_token. fold w'.
    assert (Hout : outside w' = u3) by reflexivity.
    rewrite <- Hout in Hretry.
    rewrite (fetchFollowedStreams_answered fuel _ _ _ _ _ Hretry Hne).
    rewrite (fetchFollowedStreams_answered 0 _ _ _ _ _ Hretry Hne).
    split; [reflexivity|]. cbv zeta.
    set (w1 := after w' u4 [GetStreamsFollowed accountId new_token]).
    assert (Htr : trace w1 =
                  (trace w ++ [GetStreamsFollowed accountId userAccessToken;
                               AccountFindFirst accountId;
                               PostTokenRefresh refreshToken;
                               AccountUpdate
                                 (Account.id account) new_token
                                 (TwitchTokenResponse.refresh_token twitchData)
                                 (now + TwitchTokenResponse.expires_in
                                          twitchData * 1000);
                               GetStreamsFollowed accountId new_token])%list).
    { unfold w1, after, w', after_refresh. cbn [trace].
      now rewrite <- app_assoc. }
    destruct (ok r3).
    + destruct (Promise_all_followed new_token (body r3) w1) as [Hfuel Htrace].
      split; [exact Hfuel|]. rewrite Htrace, Htr, !count_app.
      rewrite !count_users by reflexivity. cbn. split; lia.
    + cbn [fst snd]. split; [discriminate|].
      rewrite Htr, !count_app. cbn. split; lia.
Qed.

(** C4.  After a successful refresh the account's row is written once, the
    new access token, the new refresh token and the new expiry together,
    and the retried call, made with the new access token, starts only in
    the world where that row is written: every row with the account's id
    holds the three new values, there is such a row, and the other rows are
    as they were. *)
Theorem refresh_persisted_before_retry :
  let expiry := now + TwitchTokenResponse.expires_in twitchData * 1000 in
  fetchFollowedStreams (S fuel) accountId userAccessToken w
  = fetchFollowedStreams fuel accountId new_token w'
  /\ trace w'
     = (trace w ++ [GetStreamsFollowed accountId userAccessToken;
                    AccountFindFirst accountId;
                    PostTokenRefresh refreshToken;
                    AccountUpdate (Account.id account) new_token
                                  (TwitchTokenResponse.refresh_token twitchData)
                                  expiry])%list
  /\ (forall b, In b (accounts w') -> Account.id b = Account.id account ->
        Account.accessToken b = Some new_token
        /\ Account.refreshToken b
           = Some (TwitchTokenResponse.refresh_token twitchData)
        /\ Account.accessTokenExpiresAt b = Some expiry)
  /\ (exists b, In b (accounts w') /\ Account.id b = Account.id account)
  /\ (forall b, In b (accounts w') -> Account.id b <> Account.id account ->
        In b (accounts w)).
Proof.
  intros expiry.
  destruct (usable_refresh_token_found _ _ _ stored) as (Hfound & _ & _).
  apply find_some in Hfound. destruct Hfound as [Hin _].
  split; [|split; [|split; [|split]]].
  - now apply (fetchFollowedStreams_refreshes fuel) with (r1 := r1) (u1 := u1)
      (r2 := r2) (u2 := u2).
  - reflexivity.
  - intros b Hb Hid. unfold w', after_refresh in Hb. cbn [accounts] in Hb.
    unfold update_rows in Hb. apply in_map_iff in Hb.
    destruct Hb as (b0 & Hb0 & _).
    destruct (String.eqb_spec (Account.id b0) (Account.id account)) as [E|E].
    + subst b. repeat split.
    + subst b. contradiction.
  - exists (set_tokens new_token
                       (TwitchTokenResponse.refresh_token twitchData)
                       expiry account).
    split; [|reflexivity].
    unfold w', after_refresh. cbn [accounts]. unfold update_rows.
    apply in_map_iff. exists account. split; [|assumption].
    now rewrite String.eqb_refl.
  - intros b Hb Hid. unfold w', after_refresh in Hb. cbn [accounts] in Hb.
    unfold update_rows in Hb. apply in_map_iff in Hb.
    destruct Hb as (b0 & Hb0 & Hin0).
    destruct (String.eqb_spec (Account.id b0) (Account.id account)) as [E|E].
    + subst b. cbn in Hid. contradiction.
    + now subst b.
Qed.

End RefreshProtocol.

Section FanOut.
Context {U : Type} {twitch : Upstream U}.




End FanOut.

(* ================================================================== *)
(** * The theorems on the sample upstream *)

Module SampleRuns.
Import Sample.

(** The specification's case: an active stream with 120 viewers beside
    channel metadata that is out of date. *)
Lemma getChannel_live_witness :
  fst (getChannel (twitch := upstream 0) "alice" "app" world)
  = Returned {| channelId := "1"; displayName := "alice"; loginName := "alice";
                profileImageUrl := "alice.png"; title := "live now";
                gameName := "Chess"; viewers := 120; isLive := true |}.
Proof.
  rewrite (getChannel_live
             (twitch := upstream 0) "alice" "app" world
             (mkResponse 200 "OK" [user "1" "alice" "alice.png"]) 0%nat
             (user "1" "alice" "alice.png") []
             (mkResponse 200 "OK" [stream "1" "alice" "Chess" "live now" 120])
             0%nat (stream "1" "alice" "Chess" "live now" 120) []);
    reflexivity.
Defined.

Lemma getChannel_offline_witness :
  fst (getChannel (twitch := upstream 0) "bob" "app" world)
  = Returned {| channelId := "2"; displayName := "bob"; loginName := "bob";
                profileImageUrl := "bob.png"; title := "offline title";
                gameName := "Go"; viewers := 0; isLive := false |}.
Proof.
  rewrite (getChannel_offline
             (twitch := upstream 0) "bob" "app" world
             (mkResponse 200 "OK" [user "2" "bob" "bob.png"]) 0%nat
             (user "2" "bob" "bob.png") []
             (mkResponse 200 "OK" []) 0%nat
             (mkResponse 200 "OK" [channel "2" "bob" "Go" "offline title"])
             0%nat (channel "2" "bob" "Go" "offline title") []);
    reflexivity.
Defined.

Lemma getChannel_not_found_witness :
  fst (getChannel (twitch := upstream 0) "zed" "app" world)
  = Thrown (HTTPException 404 "Channel not found")
  /\ fst (getChannel (twitch := upstream 0) "carol" "app" world)
     = Thrown (HTTPException 404 "Channel not found").
Proof.
  split.
  - rewrite (proj1 (getChannel_not_found
                      (twitch := upstream 0) "zed" "app" world
                      (mkResponse 200 "OK" []) 0%nat eq_refl eq_refl));
      reflexivity.
  - rewrite (proj2 (getChannel_not_found
                      (twitch := upstream 0) "carol" "app" world
                      (mkResponse 200 "OK" [user "3" "carol" "carol.png"])
                      0%nat eq_refl eq_refl)
                   (user "3" "carol" "carol.png") []
                   (mkResponse 200 "OK" []) 0%nat
                   (mkResponse 200 "OK" []) 0%nat);
      reflexivity.
Defined.

(** Search results whose streams have 5, 50 and no viewers. *)
Lemma searchStreams_sorted_witness :
  map viewers
      (match fst (searchStreams (twitch := upstream 0) "chess" "app" world) with
       | Returned streamers => streamers
       | _ => []
       end) = [50; 5; 0]
  /\ Sorted no_fewer_viewers
            (match fst (searchStreams (twitch := upstream 0) "chess" "app" world)
             with
             | Returned streamers => streamers
             | _ => []
             end).
Proof.
  split; [reflexivity|].
  destruct (searchStreams (twitch := upstream 0) "chess" "app" world)
    as [[streamers| |] w'] eqn:Hrun; try discriminate.
  exact (proj1 (searchStreams_sorted
                  (twitch := upstream 0) "chess" "app" world w' streamers Hrun)).
Defined.

Lemma refreshAccessToken_failures_witness :
  fst (refreshAccessToken (twitch := upstream 0) "revoked" world)
  = Thrown (HTTPException 400 "INVALID_TOKEN")
  /\ exists message,
       fst (refreshAccessToken (twitch := upstream 0) "outage" world)
       = Thrown (HTTPException 500 message).
Proof.
  split.
  - apply (refreshAccessToken_failures
             (twitch := upstream 0) "revoked" world
             (mkResponse 400 "Bad Request" None) 0%nat eq_refl).
    reflexivity.
  - apply (refreshAccessToken_failures
             (twitch := upstream 0) "outage" world
             (mkResponse 503 "Service Unavailable" None) 0%nat eq_refl).
    + reflexivity.
    + discriminate.
Defined.



(** One 401, then an answer. *)
Lemma one_refresh_per_401_witness :
  let result :=
    fetchFollowedStreams (twitch := upstream 1) 2 "42" "at-old" world in
  fst result <> OutOfFuel
  /\ count is_refresh (trace (snd result)) = 1%nat
  /\ count is_followed (trace (snd result)) = 2%nat.
Proof.
  intros result.
  destruct (one_refresh_per_401
              (twitch := upstream 1) 0 "42" "at-old" world
              (mkResponse 401 "Unauthorized" []) 1%nat linked "rt-old"
              (mkResponse 200 "OK"
                          (Some (TwitchTokenResponse.mk "at-new" "rt-new" 14400)))
              1%nat (TwitchTokenResponse.mk "at-new" "rt-new" 14400)
              1700000000000 1%nat
              eq_refl eq_refl eq_refl eq_refl eq_refl eq_refl eq_refl)
    as [_ Hretry].
  destruct (Hretry (mkResponse 200 "OK" [followed "1" "alice" 120]) 2%nat
                   eq_refl)
    as (_ & Hfuel & Hrefresh & Hfollowed).
  - discriminate.
  - repeat split; assumption.
Defined.

Lemma refresh_persisted_before_retry_witness :
  fetchFollowedStreams (twitch := upstream 1) 2 "42" "at-old" world
  = fetchFollowedStreams
      (twitch := upstream 1) 1 "42" "at-new"
      (mkWorld 1%nat
               [Account.mk "row-1" "user-1" "42" "twitch" (Some "at-new")
                           (Some "rt-new") (Some 1700014400000)]
               [GetStreamsFollowed "42" "at-old"; AccountFindFirst "42";
                PostTokenRefresh "rt-old";
                AccountUpdate "row-1" "at-new" "rt-new" 1700014400000]).
Proof.
  apply (refresh_persisted_before_retry
           (twitch := upstream 1) 1 "42" "at-old" world
           (mkResponse 401 "Unauthorized" []) 1%nat linked "rt-old"
           (mkResponse 200 "OK"
                       (Some (TwitchTokenResponse.mk "at-new" "rt-new" 14400)))
           1%nat (TwitchTokenResponse.mk "at-new" "rt-new" 14400)
           1700000000000 1%nat
           eq_refl eq_refl eq_refl eq_refl eq_refl eq_refl eq_refl).
Defined.

(** C1 as it is written fails: when the retried request is answered 401 as
    the first was, the call does not end with the generic upstream failure;
    it refreshes a second time, retries a second time, and here returns the
    followed streams. *)
Lemma second_401_refreshes_again :
  let result :=
    fetchFollowedStreams (twitch := upstream 2) 3 "42" "at-old" world in
  status (fst (helix_streams_followed (Upstream := upstream 2)
                                      "42" "at-old" 0%nat)) = 401
  /\ status (fst (helix_streams_followed (Upstream := upstream 2)
                                         "42" "at-new" 1%nat)) = 401
  /\ count is_refresh (trace (snd result)) = 2%nat
  /\ count is_followed (trace (snd result)) = 3%nat
  /\ ~ (exists e, fst result = Thrown e /\ upstream_error e).
Proof.
  repeat split; try reflexivity.
  intros [e [He _]]. vm_compute in He. discriminate.
Qed.

(** The source has no bound on the retries: against an upstream that answers
    401 [k] times, the call makes a refresh for each of the first [k] levels of
    its recursion and has not settled by then. *)
Lemma refreshes_without_bound (k : nat) :
  forall (fuel u : nat) (accessToken : option string) (refreshToken : string)
         (expiresAt : option Z) (bearer : string) (events : list Event),
    (u + fuel <= k)%nat ->
    refreshToken = "rt-old" \/ refreshToken = "rt-new" ->
    let w := mkWorld u [Account.mk "row-1" "user-1" "42" "twitch" accessToken
                                   (Some refreshToken) expiresAt] events in
    let result := fetchFollowedStreams (twitch := upstream k) fuel "42" bearer w in
    fst result = OutOfFuel
    /\ count is_refresh (trace (snd result))
       = (count is_refresh events + fuel)%nat.
Proof.
  induction fuel as [|fuel IH];
    intros u accessToken refreshToken expiresAt bearer events Hle Hrt w result.
  - unfold result, w. cbn [fetchFollowedStreams fst snd trace].
    split; [reflexivity|]. now rewrite Nat.add_0_r.
  - unfold result, w.
    assert (Hlt : (u <? k)%nat = true) by (apply Nat.ltb_lt; lia).
    rewrite (fetchFollowedStreams_refreshes
               (twitch := upstream k) fuel "42" bearer _
               (mkResponse 401 "Unauthorized" []) (S u)
               (Account.mk "row-1" "user-1" "42" "twitch" accessToken
                           (Some refreshToken) expiresAt)
               refreshToken
               (mkResponse 200 "OK"
                           (Some (TwitchTokenResponse.mk "at-new" "rt-new" 14400)))
               (S u) (TwitchTokenResponse.mk "at-new" "rt-new" 14400)
               1700000000000 (S u)).
    + match goal with
      | |- context [after_refresh ?a ?b ?c ?d ?e ?f ?g ?h] =>
          change (after_refresh a b c d e f g h)
            with (mkWorld (S u)
                          [Account.mk "row-1" "user-1" "42" "twitch"
                                      (Some "at-new") (Some "rt-new")
                                      (Some (1700000000000 + 14400 * 1000))]
                          (events ++ [GetStreamsFollowed "42" bearer;
                                      AccountFindFirst "42";
                                      PostTokenRefresh refreshToken;
                                      AccountUpdate "row-1" "at-new" "rt-new"
                                        (1700000000000 + 14400 * 1000)])%list)
      end.
      cbn [TwitchTokenResponse.access_token].
      destruct (IH (S u) (Some "at-new") "rt-new"
                   (Some (1700000000000 + 14400 * 1000)) "at-new"
                   (events ++ [GetStreamsFollowed "42" bearer;
                               AccountFindFirst "42";
                               PostTokenRefresh refreshToken;
                               AccountUpdate "row-1" "at-new" "rt-new"
                                 (1700000000000 + 14400 * 1000)])%list
                   ltac:(lia) (or_intror eq_refl)) as [Hout Hcount].
      split; [exact Hout|]. rewrite Hcount, count_app. cbn. lia.
    + cbn [helix_streams_followed upstream outside]. now rewrite Hlt.
    + reflexivity.
    + destruct Hrt as [-> | ->]; reflexivity.
    + destruct Hrt as [-> | ->]; reflexivity.
    + reflexivity.
    + reflexivity.
    + reflexivity.
Qed.

End SampleRuns.

(* ================================================================== *)
(** * More on the app-token cache *)

Module TokenCacheMore.
Import TokenCache TokenCacheFacts.

(** A cache that is stale stays stale as the clock moves on. *)
Lemma lookup_stays_stale (c : Cache) (t t' : Z) :
  lookup c t = None -> t <= t' -> lookup c t' = None.
Proof.
  unfold lookup. destruct (cachedToken c) as [tok|]; [|reflexivity].
  destruct (tokenExpiryTime c) as [e|]; [|reflexivity].
  destruct (negb (e =? 0)); [|reflexivity]. cbn [andb].
  destruct (Z.ltb_spec t (e - EXPIRY_BUFFER)); [discriminate|].
  destruct (Z.ltb_spec t' (e - EXPIRY_BUFFER)); [lia|reflexivity].
Qed.

(** X1.  When the token endpoint answers outside 2xx the middleware throws
    the 500 of line 45 and leaves the cache as it was; nothing is remembered
    of the failure, and every later call asks the token endpoint again. *)
Theorem failed_fetch_is_retried (c : Cache) (i j : Invocation) :
  lookup c (currentTime i) = None ->
  ok (response i) = false ->
  currentTime i <= currentTime j ->
  twitchTokenMiddleware c i
  = (c, Failed (HTTPException 500 ("Failed to fetch Twitch token: "
                                     ++ statusText (response i))))
  /\ issues_request
       (snd (twitchTokenMiddleware (fst (twitchTokenMiddleware c i)) j)) = true.
Proof.
  intros Hmiss Hfail Hlater.
  assert (Hrun : twitchTokenMiddleware c i
                 = (c, Failed (HTTPException 500
                                 ("Failed to fetch Twitch token: "
                                    ++ statusText (response i))))).
  { unfold twitchTokenMiddleware. now rewrite Hmiss, Hfail. }
  split; [exact Hrun|]. rewrite Hrun. cbn [fst].
  apply middleware_miss. now apply lookup_stays_stale with (t := currentTime i).
Qed.

Lemma failed_fetch_is_retried_witness :
  issues_request
    (snd (twitchTokenMiddleware
            (fst (twitchTokenMiddleware
                    initial
                    (mkInvocation 1700000000000 Sample2.refused 1700000000100)))
            (mkInvocation 1700000000200 Sample.granted 1700000000300)))
  = true.
Proof.
  apply (failed_fetch_is_retried
           initial
           (mkInvocation 1700000000000 Sample2.refused 1700000000100)
           (mkInvocation 1700000000200 Sample.granted 1700000000300)).
  - reflexivity.
  - reflexivity.
  - cbn. lia.
Defined.

(** X2.  Whatever lifetime the token endpoint reports, a credential is served
    from the cache only during the 24 hours, less 120 seconds, that follow
    its storing, and what is served is the credential last stored. *)
Theorem served_within_a_day (l : list Invocation) (i : Invocation)
        (a : AppCredential) (c' : Cache) (tok : TwitchTokenResponse) :
  snd (calls l) = Some a ->
  twitchTokenMiddleware (fst (calls l)) i = (c', FromCache tok) ->
  tok = credential a
  /\ currentTime i < issuedAt a + MAX_CACHE_DURATION - 2 * EXPIRY_BUFFER.
Proof.
  intros Hissued Hrun. pose proof (calls_agree l) as Hag.
  unfold agrees in Hag. rewrite Hissued in Hag. rewrite Hag in Hrun.
  unfold twitchTokenMiddleware, lookup in Hrun.
  cbn [cachedToken tokenExpiryTime] in Hrun.
  set (e := issuedAt a + Z.min (ttlSeconds a * 1000) MAX_CACHE_DURATION
            - EXPIRY_BUFFER) in *.
  destruct (negb (e =? 0)); cbn [andb] in Hrun.
  - destruct (Z.ltb_spec (currentTime i) (e - EXPIRY_BUFFER)) as [Hlt|Hge].
    + injection Hrun as _ <-. split; [reflexivity|]. unfold e in Hlt. lia.
    + destruct (negb (ok (response i))); discriminate.
  - destruct (negb (ok (response i))); discriminate.
Qed.

Lemma served_within_a_day_witness :
  snd (twitchTokenMiddleware
         (fst (calls [mkInvocation 1700000000000 Sample2.long_lived
                                   1700000000000]))
         (mkInvocation 1700086279999 Sample.granted 1700086279999))
  = FromCache (body Sample2.long_lived)
  /\ 1700086279999
     < 1700000000000 + MAX_CACHE_DURATION - 2 * EXPIRY_BUFFER.
Proof.
  split; [reflexivity|].
  apply (served_within_a_day
           [mkInvocation 1700000000000 Sample2.long_lived 1700000000000]
           (mkInvocation 1700086279999 Sample.granted 1700086279999)
           (mkCredential 1700000000000 5000000 (body Sample2.long_lived))
           (fst (calls [mkInvocation 1700000000000 Sample2.long_lived
                                     1700000000000]))
           (body Sample2.long_lived));
    reflexivity.
Defined.

(** X3.  A credential reported to last 120 seconds or less is stored but
    never served from the cache: every call made once it is stored asks the
    token endpoint again. *)
Theorem short_lived_never_served (c c' : Cache) (i j : Invocation)
        (tok : TwitchTokenResponse) :
  twitchTokenMiddleware c i = (c', Fetched tok) ->
  expires_in tok <= 120 ->
  storeTime i <= currentTime j ->
  cachedToken c' = Some (body (response i))
  /\ issues_request (snd (twitchTokenMiddleware c' j)) = true.
Proof.
  intros Hrun Hshort Hlater. unfold twitchTokenMiddleware in Hrun.
  destruct (lookup c (currentTime i)); [discriminate|].
  destruct (negb (ok (response i))); [discriminate|].
  injection Hrun as <- <-. cbn [expires_in] in Hshort.
  split; [reflexivity|]. apply middleware_miss.
  unfold lookup, store. cbn [cachedToken tokenExpiryTime].
  set (e := storeTime i
            + Z.min (expires_in (body (response i)) * 1000) MAX_CACHE_DURATION
            - EXPIRY_BUFFER).
  destruct (negb (e =? 0)); [|reflexivity]. cbn [andb].
  destruct (Z.ltb_spec (currentTime j) (e - EXPIRY_BUFFER)) as [Hlt|_];
    [|reflexivity].
  unfold e, EXPIRY_BUFFER, MAX_CACHE_DURATION in Hlt. lia.
Qed.

Lemma short_lived_never_served_witness :
  issues_request
    (snd (twitchTokenMiddleware
            (store (body Sample2.short_lived) 1700000000100)
            (mkInvocation 1700000000100 Sample.granted 1700000000200)))
  = true.
Proof.
  apply (short_lived_never_served
           initial (store (body Sample2.short_lived) 1700000000100)
           (mkInvocation 1700000000000 Sample2.short_lived 1700000000100)
           (mkInvocation 1700000000100 Sample.granted 1700000000200)
           (body Sample2.short_lived)).
  - reflexivity.
  - cbn. lia.
  - cbn. lia.
Defined.

End TokenCacheMore.

(* ================================================================== *)
(** * More on followed streams *)

Lemma Promise_all_world {U A : Type} {twitch : Upstream U}
      (ps : list (M U A)) (w : World U) :
  snd (Promise_all ps w) = snd (settle_all ps w).
Proof.
  unfold Promise_all. destruct (settle_all ps w) as [os w'].
  destruct (rejections os); [|reflexivity].
  now destruct (fulfilled os).
Qed.

Lemma Promise_all_thrown {U A : Type} {twitch : Upstream U}
      (ps : list (M U A)) (w : World U) (e : Exn) :
  fst (Promise_all ps w) = Thrown e ->
  In e (rejections (fst (settle_all ps w))).
Proof.
  unfold Promise_all. destruct (settle_all ps w) as [os w']. cbn [fst].
  destruct (rejections os) as [|e0 es].
  - destruct (fulfilled os); discriminate.
  - intros [= <-]. apply nth_or_head.
Qed.

Lemma Promise_all_returned {U A : Type} {twitch : Upstream U}
      (ps : list (M U A)) (w : World U) (vs : list A) :
  fst (Promise_all ps w) = Returned vs ->
  fulfilled (fst (settle_all ps w)) = Some vs.
Proof.
  unfold Promise_all. destruct (settle_all ps w) as [os w']. cbn [fst].
  destruct (rejections os); [|discriminate].
  destruct (fulfilled os); [|discriminate]. now intros [= ->].
Qed.

Lemma update_rows_keys (id accessToken refreshToken : string) (expiry : Z)
      (rows : list Account.t) :
  map row_key (update_rows id accessToken refreshToken expiry rows)
  = map row_key rows.
Proof.
  unfold update_rows. rewrite map_map. apply map_ext. intros a.
  now destruct (Account.id a =? id)%string.
Qed.

Section FollowedMore.
Context {U : Type} {twitch : Upstream U}.

(** One level of the recursion, branch by branch. *)
Lemma fetchFollowedStreams_step
      (fuel : nat) (accountId userAccessToken : string) (w : World U) :
  fetchFollowedStreams (S fuel) accountId userAccessToken w =
  let (r1, u1) :=
    helix_streams_followed accountId userAccessToken (outside w) in
  let asked := GetStreamsFollowed accountId userAccessToken in
  if ok r1 then
    Promise_all (map (followed_item userAccessToken) (body r1))
                (after w u1 [asked])
  else if status r1 =? 401 then
    match usable_refresh_token (twitch_account accountId (accounts w)) with
    | None =>
        (Thrown (HTTPException 500
                   "Invalid access token, no refresh token found"),
         after w u1 [asked; AccountFindFirst accountId])
    | Some (account, refreshToken) =>
        let (r2, u2) := oauth2_token_refresh refreshToken u1 in
        let w2 := after w u2 [asked; AccountFindFirst accountId;
                              PostTokenRefresh refreshToken] in
        if ok r2 then
          match body r2 with
          | None =>
              (Thrown (HTTPException 500
                 "Failed to fetch followed channels, token refresh failed"),
               w2)
          | Some twitchData =>
              let (now, u3) := date_now u2 in
              fetchFollowedStreams
                fuel accountId (TwitchTokenResponse.access_token twitchData)
                (after_refresh w u3 accountId userAccessToken refreshToken
                               account twitchData now)
          end
        else
          (Thrown (if status r2 =? 400
                   then HTTPException 400 "INVALID_TOKEN"
                   else HTTPException 500
                          ("Failed to refresh Access Token: "
                             ++ string_of_Z (status r2) ++ " "
                             ++ statusText r2)),
           w2)
    end
  else
    (Thrown (HTTPException 500
               ("Failed to fetch Followed Channels for " ++ accountId
                  ++ ": " ++ string_of_Z (status r1) ++ " " ++ statusText r1)),
     after w u1 [asked]).
Proof.
  destruct (helix_streams_followed accountId userAccessToken (outside w))
    as [r1 u1] eqn:Hf.
  cbv zeta.
  destruct (Z.eqb_spec (status r1) 401) as [H401|Hne].
  - assert (Hok : ok r1 = false) by (unfold ok; now rewrite H401).
    rewrite Hok.
    destruct (usable_refresh_token (twitch_account accountId (accounts w)))
      as [[account refreshToken]|] eqn:Hrt.
    + destruct (oauth2_token_refresh refreshToken u1) as [r2 u2] eqn:Hr.
      destruct (ok r2) eqn:Hok2; [destruct (body r2) as [d|] eqn:Hb|].
      * destruct (date_now u2) as [now u3] eqn:Hnow.
        now apply fetchFollowedStreams_refreshes with (r1 := r1) (u1 := u1)
          (r2 := r2) (u2 := u2).
      * cbn [fetchFollowedStreams]. unfold bind at 1, fetch. rewrite Hf, Hok.
        cbn [negb]. rewrite H401. cbn [Z.eqb Pos.eqb].
        unfold bind at 1, account_findFirst. cbn [outside accounts trace].
        rewrite Hrt. unfold bind at 1. rewrite refreshAccessToken_run.
        cbn [outside]. rewrite Hr, Hok2, Hb.
        unfold after. cbn [accounts trace]. now rewrite <- !app_assoc.
      * cbn [fetchFollowedStreams]. unfold bind at 1, fetch. rewrite Hf, Hok.
        cbn [negb]. rewrite H401. cbn [Z.eqb Pos.eqb].
        unfold bind at 1, account_findFirst. cbn [outside accounts trace].
        rewrite Hrt. unfold bind at 1. rewrite refreshAccessToken_run.
        cbn [outside]. rewrite Hr, Hok2.
        unfold after. cbn [accounts trace]. rewrite <- !app_assoc.
        now destruct (status r2 =? 400).
    + cbn [fetchFollowedStreams]. unfold bind at 1, fetch. rewrite Hf, Hok.
      cbn [negb]. rewrite H401. cbn [Z.eqb Pos.eqb].
      unfold bind at 1, account_findFirst. cbn [outside accounts trace].
      rewrite Hrt. unfold throw, after. cbn [accounts trace].
      now rewrite <- !app_assoc.
  - now rewrite (fetchFollowedStreams_answered fuel _ _ _ _ _ Hf Hne).
Qed.

(** X4.  A 401 for an account that has no row, or whose row has no refresh
    token or an empty one, ends the call with the 500 of line 265: the store
    has been read once, nothing has been asked of the token endpoint, and
    nothing is written. *)
Theorem no_refresh_token_no_refresh
        (fuel : nat) (accountId userAccessToken : string) (w : World U)
        (r1 : Response (list FollowedStreamsData.t)) (u1 : U) :
  helix_streams_followed accountId userAccessToken (outside w) = (r1, u1) ->
  status r1 = 401 ->
  usable_refresh_token (twitch_account accountId (accounts w)) = None ->
  fetchFollowedStreams (S fuel) accountId userAccessToken w
  = (Thrown (HTTPException 500 "Invalid access token, no refresh token found"),
     after w u1 [GetStreamsFollowed accountId userAccessToken;
                 AccountFindFirst accountId]).
Proof.
  intros Hf H401 Hrt. rewrite fetchFollowedStreams_step, Hf, Hrt.
  unfold ok. now rewrite H401.
Qed.

(** X5.  When the token endpoint refuses the refresh, the call ends there:
    with the 400 INVALID_TOKEN when the answer was a 400, with a 500
    otherwise.  The store is as it was and the request for followed streams
    is not made again. *)
Theorem refused_refresh_ends_call
        (fuel : nat) (accountId userAccessToken : string) (w : World U)
        (r1 : Response (list FollowedStreamsData.t)) (u1 : U)
        (account : Account.t) (refreshToken : string)
        (r2 : Response (option TwitchTokenResponse.t)) (u2 : U) :
  helix_streams_followed accountId userAccessToken (outside w) = (r1, u1) ->
  status r1 = 401 ->
  usable_refresh_token (twitch_account accountId (accounts w))
  = Some (account, refreshToken) ->
  oauth2_token_refresh refreshToken u1 = (r2, u2) ->
  ok r2 = false ->
  fetchFollowedStreams (S fuel) accountId userAccessToken w
  = (Thrown (if status r2 =? 400
             then HTTPException 400 "INVALID_TOKEN"
             else HTTPException 500
                    ("Failed to refresh Access Token: "
                       ++ string_of_Z (status r2) ++ " " ++ statusText r2)),
     after w u2 [GetStreamsFollowed accountId userAccessToken;
                 AccountFindFirst accountId;
                 PostTokenRefresh refreshToken]).
Proof.
  intros Hf H401 Hrt Hr Hok2.
  rewrite fetchFollowedStreams_step, Hf, Hrt, Hr, Hok2.
  unfold ok. now rewrite H401.
Qed.

End FollowedMore.

Lemma fulfilled_cons {A : Type} (o : Outcome A) (os : list (Outcome A))
      (vs : list A) :
  fulfilled (o :: os) = Some vs ->
  exists v vs', o = Returned v /\ fulfilled os = Some vs' /\ vs = v :: vs'.
Proof.
  destruct o as [v| |]; cbn [fulfilled]; try discriminate.
  destruct (fulfilled os) as [vs'|]; [|discriminate].
  intros [= <-]. now exists v, vs'.
Qed.

Section FollowedInvariants.
Context {U : Type} {twitch : Upstream U}.

Lemma followed_fulfilled (userAccessToken : string)
      (l : list FollowedStreamsData.t) :
  forall (w : World U) (vs : list Streamer),
    fulfilled (fst (settle_all (map (followed_item userAccessToken) l) w))
    = Some vs ->
    Forall2 followed_match l vs.
Proof.
  induction l as [|x l IH]; intros w vs; cbn [map settle_all].
  - cbn. intros [= <-]. constructor.
  - rewrite followed_item_run.
    destruct (helix_users (FollowedStreamsData.user_login x) userAccessToken
                          (outside w)) as [r u'].
    set (w1 := after w u' [GetUsers (FollowedStreamsData.user_login x)
                                    userAccessToken]).
    specialize (IH w1).
    destruct (settle_all (map (followed_item userAccessToken) l) w1)
      as [os w2].
    cbn [fst] in *. intros Hf. apply fulfilled_cons in Hf.
    destruct Hf as (v & vs' & Hv & Hvs & ->).
    constructor; [|now apply IH].
    destruct (ok r); [|discriminate].
    destruct (hd_error (body r)); [|discriminate].
    injection Hv as <-. unfold followed_match. cbn. repeat split.
Qed.

(** X6.  Whatever the depth of the recursion, an exception thrown by
    [fetchFollowedStreams] reaches the client as the 400 INVALID_TOKEN or as
    a 500: the 401 of the upstream is never passed on. *)
Theorem followed_failures_400_or_500 (fuel : nat) :
  forall (accountId userAccessToken : string) (w : World U) (e : Exn),
    fst (fetchFollowedStreams fuel accountId userAccessToken w) = Thrown e ->
    e = HTTPException 400 "INVALID_TOKEN" \/ snd (onError e) = 500.
Proof.
  induction fuel as [|fuel IH]; intros accountId userAccessToken w e.
  - discriminate.
  - rewrite fetchFollowedStreams_step.
    destruct (helix_streams_followed accountId userAccessToken (outside w))
      as [r1 u1].
    cbv zeta. destruct (ok r1).
    + intros Hthrown. right. apply Promise_all_thrown in Hthrown.
      pose proof (followed_settle
                    userAccessToken (body r1)
                    (after w u1 [GetStreamsFollowed accountId userAccessToken]))
        as Hs.
      cbv zeta in Hs. destruct Hs as (_ & _ & _ & Hrej).
      rewrite Forall_forall in Hrej.
      destruct (Hrej e Hthrown) as [[m ->]|[m ->]]; reflexivity.
    + destruct (status r1 =? 401).
      * destruct (usable_refresh_token _) as [[account refreshToken]|].
        -- destruct (oauth2_token_refresh refreshToken u1) as [r2 u2].
           destruct (ok r2).
           ++ destruct (body r2) as [d|].
              ** destruct (date_now u2) as [now u3]. apply IH.
              ** intros [= <-]. now right.
           ++ destruct (status r2 =? 400); intros [= <-]; [now left|now right].
        -- intros [= <-]. now right.
      * intros [= <-]. now right.
Qed.

(** X7.  Whatever happens in a call, refreshes and failures included, the
    account table keeps its rows: none is added or removed, and the id, the
    user, the platform account id and the provider of each are as before;
    only the token columns change. *)
Theorem followed_keeps_rows (fuel : nat) :
  forall (accountId userAccessToken : string) (w : World U),
    map row_key
        (accounts (snd (fetchFollowedStreams fuel accountId userAccessToken w)))
    = map row_key (accounts w).
Proof.
  induction fuel as [|fuel IH]; intros accountId userAccessToken w.
  - reflexivity.
  - rewrite fetchFollowedStreams_step.
    destruct (helix_streams_followed accountId userAccessToken (outside w))
      as [r1 u1].
    cbv zeta. destruct (ok r1).
    + rewrite Promise_all_world.
      pose proof (followed_settle
                    userAccessToken (body r1)
                    (after w u1 [GetStreamsFollowed accountId userAccessToken]))
        as Hs.
      cbv zeta in Hs. destruct Hs as (_ & Hacc & _ & _). now rewrite Hacc.
    + destruct (status r1 =? 401); [|reflexivity].
      destruct (usable_refresh_token _) as [[account refreshToken]|];
        [|reflexivity].
      destruct (oauth2_token_refresh refreshToken u1) as [r2 u2].
      destruct (ok r2); [|reflexivity].
      destruct (body r2) as [d|]; [|reflexivity].
      destruct (date_now u2) as [now u3]. rewrite IH.
      unfold after_refresh. cbn [accounts]. apply update_rows_keys.
Qed.

(** X8.  When the request for followed streams is answered, the list that is
    returned has one Streamer for each followed stream, in the order of the
    answer, made of that stream's fields, with isLive true. *)
Theorem followed_streamers_in_order
        (fuel : nat) (accountId userAccessToken : string) (w : World U)
        (r : Response (list FollowedStreamsData.t)) (u1 : U)
        (streamers : list Streamer) :
  helix_streams_followed accountId userAccessToken (outside w) = (r, u1) ->
  ok r = true ->
  fst (fetchFollowedStreams (S fuel) accountId userAccessToken w)
  = Returned streamers ->
  Forall2 followed_match (body r) streamers.
Proof.
  intros Hf Hok. rewrite fetchFollowedStreams_step, Hf, Hok. cbv zeta.
  intros Hret. apply Promise_all_returned in Hret.
  now apply followed_fulfilled in Hret.
Qed.

(** X9.  When the request for followed streams is answered, one user request
    leaves for each followed stream, in the order of the answer and with the
    token of the call, whether the call then returns or throws; nothing else
    is asked. *)
Theorem followed_requests_per_stream
        (fuel : nat) (accountId userAccessToken : string) (w : World U)
        (r : Response (list FollowedStreamsData.t)) (u1 : U) :
  helix_streams_followed accountId userAccessToken (outside w) = (r, u1) ->
  ok r = true ->
  trace (snd (fetchFollowedStreams (S fuel) accountId userAccessToken w))
  = (trace w
       ++ GetStreamsFollowed accountId userAccessToken
       :: map (fun x => GetUsers (FollowedStreamsData.user_login x)
                                 userAccessToken) (body r))%list.
Proof.
  intros Hf Hok. rewrite fetchFollowedStreams_step, Hf, Hok. cbv zeta.
  destruct (Promise_all_followed
              userAccessToken (body r)
              (after w u1 [GetStreamsFollowed accountId userAccessToken]))
    as [_ Htr].
  rewrite Htr. unfold after. cbn [trace]. now rewrite <- app_assoc.
Qed.

(** X10.  At whatever depth the call returns, after however many refreshes,
    every Streamer it returns has isLive true. *)
Theorem followed_all_live (fuel : nat) :
  forall (accountId userAccessToken : string) (w : World U)
         (streamers : list Streamer),
    fst (fetchFollowedStreams fuel accountId userAccessToken w)
    = Returned streamers ->
    Forall (fun s => isLive s = true) streamers.
Proof.
  induction fuel as [|fuel IH]; intros accountId userAccessToken w streamers.
  - discriminate.
  - rewrite fetchFollowedStreams_step.
    destruct (helix_streams_followed accountId userAccessToken (outside w))
      as [r1 u1].
    cbv zeta. destruct (ok r1).
    + intros Hret. apply Promise_all_returned in Hret.
      apply followed_fulfilled in Hret.
      induction Hret as [|x s xs ss Hm _ IHf]; constructor; [|exact IHf].
      apply Hm.
    + destruct (status r1 =? 401); [|discriminate].
      destruct (usable_refresh_token _) as [[account refreshToken]|];
        [|discriminate].
      destruct (oauth2_token_refresh refreshToken u1) as [r2 u2].
      destruct (ok r2); [|discriminate].
      destruct (body r2) as [d|]; [|discriminate].
      destruct (date_now u2) as [now u3]. apply IH.
Qed.

End FollowedInvariants.

(* ================================================================== *)
(** * More on search and on getChannel *)

(** X11.  The sort is stable: the Streamers that have the same number of
    viewers keep, in the sorted list, the order they had. *)
Theorem Array_sort_stable (v : Z) (l : list Streamer) :
  filter (fun s => viewers s =? v) (Array_sort by_viewers_desc l)
  = filter (fun s => viewers s =? v) l.
Proof.
  assert (Hins : forall a l',
             filter (fun s => viewers s =? v)
                    (insert_sorted by_viewers_desc a l')
             = filter (fun s => viewers s =? v) (a :: l')).
  { intros a l'. induction l' as [|b l' IH]; [reflexivity|].
    cbn [insert_sorted].
    destruct (Z.leb_spec (by_viewers_desc a b) 0) as [Hle|Hgt];
      [reflexivity|].
    unfold by_viewers_desc in Hgt. cbn [filter] in *. rewrite IH.
    destruct (Z.eqb_spec (viewers a) v) as [Ha|Ha];
      destruct (Z.eqb_spec (viewers b) v) as [Hb|Hb];
      try reflexivity. lia. }
  induction l as [|a l IH]; [reflexivity|].
  cbn [Array_sort]. rewrite Hins. cbn [filter]. now rewrite IH.
Qed.

(** Closes a goal on the events of a finished run of getChannel. *)
Ltac requests_made :=
  eexists; unfold after, ret, throw; cbn [snd trace accounts outside];
  rewrite <- ?app_assoc;
  split; [reflexivity|];
  split; [cbn; lia|];
  split; [repeat constructor|reflexivity].

Section SearchMore.
Context {U : Type} {twitch : Upstream U}.

(** What the fan-out over the search results leaves behind. *)
Lemma search_settle (accessToken : string) (l : list SearchData.t) :
  forall w : World U,
    let res := settle_all (map (search_item accessToken) l) w in
    trace (snd res)
    = (trace w ++ map (fun x => GetStreams (SearchData.id x) accessToken) l)%list
    /\ accounts (snd res) = accounts w.
Proof.
  induction l as [|x l IH]; intros w; cbn [map settle_all].
  - cbn. now rewrite app_nil_r.
  - rewrite search_item_run.
    destruct (helix_streams (SearchData.id x) accessToken (outside w))
      as [r u'].
    set (w1 := after w u' [GetStreams (SearchData.id x) accessToken]).
    specialize (IH w1). cbv zeta in IH.
    destruct (settle_all (map (search_item accessToken) l) w1) as [os w2].
    cbn [fst snd] in *. destruct IH as [Htr Hacc]. split.
    + rewrite Htr. unfold w1, after. cbn [trace]. now rewrite <- app_assoc.
    + now rewrite Hacc.
Qed.

Lemma search_fulfilled (accessToken : string) (l : list SearchData.t) :
  forall (w : World U) (vs : list Streamer),
    fulfilled (fst (settle_all (map (search_item accessToken) l) w)) = Some vs ->
    Forall2 search_match l vs.
Proof.
  induction l as [|x l IH]; intros w vs; cbn [map settle_all].
  - cbn. intros [= <-]. constructor.
  - rewrite search_item_run.
    destruct (helix_streams (SearchData.id x) accessToken (outside w))
      as [r u'].
    set (w1 := after w u' [GetStreams (SearchData.id x) accessToken]).
    specialize (IH w1).
    destruct (settle_all (map (search_item accessToken) l) w1) as [os w2].
    cbn [fst] in *. intros Hf. apply fulfilled_cons in Hf.
    destruct Hf as (v & vs' & Hv & Hvs & ->).
    constructor; [|now apply IH].
    destruct (ok r); [|discriminate].
    injection Hv as <-. unfold search_match. cbn. repeat split.
Qed.

(** X12.  A search that returns keeps every result of the search endpoint:
    the list returned is a rearrangement of one Streamer per result, each
    made of its result's id, names, thumbnail, game and is_live. *)
Theorem search_keeps_every_result
        (searchQuery accessToken : string) (w : World U)
        (r : Response (list SearchData.t)) (u1 : U)
        (streamers : list Streamer) :
  helix_search_channels searchQuery accessToken (outside w) = (r, u1) ->
  fst (searchStreams searchQuery accessToken w) = Returned streamers ->
  exists unsorted,
    Forall2 search_match (body r) unsorted
    /\ Permutation unsorted streamers
    /\ List.length streamers = List.length (body r).
Proof.
  intros Hs. rewrite searchStreams_run, Hs.
  destruct (ok r); [|discriminate]. cbv zeta.
  destruct (Promise_all (map (search_item accessToken) (body r)) _)
    as [o w2] eqn:Hall.
  destruct o as [unsorted| |]; try discriminate.
  cbn [fst]. intros [= <-]. exists unsorted.
  assert (Hm : Forall2 search_match (body r) unsorted).
  { apply search_fulfilled
      with (accessToken := accessToken)
           (w := after w u1 [GetSearchChannels searchQuery accessToken]).
    apply Promise_all_returned. now rewrite Hall. }
  split; [exact Hm|]. split; [apply Array_sort_perm|].
  rewrite <- (Permutation_length (Array_sort_perm by_viewers_desc unsorted)).
  symmetry. exact (Forall2_length Hm).
Qed.

(** X13.  A search whose search request is answered sends one stream request
    for each result, in the order of the answer and with the token of the
    call, whether it then returns or throws; it does not touch the account
    store. *)
Theorem search_requests_per_result
        (searchQuery accessToken : string) (w : World U)
        (r : Response (list SearchData.t)) (u1 : U) :
  helix_search_channels searchQuery accessToken (outside w) = (r, u1) ->
  ok r = true ->
  trace (snd (searchStreams searchQuery accessToken w))
  = (trace w
       ++ GetSearchChannels searchQuery accessToken
       :: map (fun x => GetStreams (SearchData.id x) accessToken) (body r))%list
  /\ accounts (snd (searchStreams searchQuery accessToken w)) = accounts w.
Proof.
  intros Hs Hok. rewrite searchStreams_run, Hs, Hok. cbv zeta.
  pose proof (Promise_all_world
                (map (search_item accessToken) (body r))
                (after w u1 [GetSearchChannels searchQuery accessToken]))
    as Hw.
  pose proof (search_settle
                accessToken (body r)
                (after w u1 [GetSearchChannels searchQuery accessToken]))
    as Hset.
  cbv zeta in Hset. rewrite <- Hw in Hset.
  destruct (Promise_all (map (search_item accessToken) (body r)) _)
    as [[l| |] w2]; cbn [snd] in *; destruct Hset as [Htr Hacc];
    (split; [rewrite Htr; unfold after; cbn [trace];
             now rewrite <- app_assoc | exact Hacc]).
Qed.

(** X14.  When the search request is answered outside 2xx, searchStreams
    throws the 500 of line 161 at once: the search request is the only one
    it has sent, no stream request follows, and the account store is as it
    was. *)
Theorem search_refused_no_fan_out
        (searchQuery accessToken : string) (w : World U)
        (r : Response (list SearchData.t)) (u1 : U) :
  helix_search_channels searchQuery accessToken (outside w) = (r, u1) ->
  ok r = false ->
  searchStreams searchQuery accessToken w
  = (Thrown (HTTPException 500 "Failed to fetch Streams"),
     after w u1 [GetSearchChannels searchQuery accessToken]).
Proof.
  intros Hs Hok. now rewrite searchStreams_run, Hs, Hok.
Qed.

(** X15.  A Helix request of getChannel that is answered outside 2xx ends
    the handler with a 500 that names the request, and nothing is sent after
    it: a refused user request is the only request made; a refused stream
    request is not followed by the channel request; a refused channel request
    is the third and last. *)
Theorem getChannel_refused_request
        (name access_token : string) (w : World U)
        (r1 : Response (list UserData.t)) (u1 : U) :
  helix_users name access_token (outside w) = (r1, u1) ->
  (ok r1 = false ->
   getChannel name access_token w
   = (Thrown (HTTPException 500 ("Failed to fetch User Data for " ++ name)),
      after w u1 [GetUsers name access_token]))
  /\ (forall userData users r2 u2,
        ok r1 = true ->
        body r1 = userData :: users ->
        helix_streams (UserData.id userData) access_token u1 = (r2, u2) ->
        (ok r2 = false ->
         getChannel name access_token w
         = (Thrown (HTTPException 500 ("Failed to fetch Stream Data for "
                                         ++ UserData.id userData)),
            after w u2 [GetUsers name access_token;
                        GetStreams (UserData.id userData) access_token]))
        /\ (forall r3 u3,
              ok r2 = true ->
              body r2 = [] ->
              helix_channels (UserData.id userData) access_token u2
              = (r3, u3) ->
              ok r3 = false ->
              getChannel name access_token w
              = (Thrown (HTTPException 500
                           ("Failed to fetch Channel Data for "
                              ++ UserData.id userData)),
                 after w u3 [GetUsers name access_token;
                             GetStreams (UserData.id userData) access_token;
                             GetChannels (UserData.id userData)
                                         access_token]))).
Proof.
  intros Hu. split.
  - intros Hok1. unfold getChannel, bind.
    now rewrite fetchUserData_run, Hu, Hok1.
  - intros userData users r2 u2 Hok1 Hb1 Hs. split.
    + intros Hok2. unfold getChannel, bind.
      rewrite fetchUserData_run, Hu, Hok1, Hb1. cbn [hd_error].
      rewrite fetchStreamData_run. cbn [after outside].
      rewrite Hs, Hok2. now rewrite after_after.
    + intros r3 u3 Hok2 Hb2 Hc Hok3. unfold getChannel, bind.
      rewrite fetchUserData_run, Hu, Hok1, Hb1. cbn [hd_error].
      rewrite fetchStreamData_run. cbn [after outside].
      rewrite Hs, Hok2, Hb2. cbn [hd_error].
      rewrite fetchChannelData_run. cbn [after outside].
      rewrite Hc, Hok3. now rewrite !after_after.
Qed.

(** X16.  getChannel sends at most three requests, all to Helix and all with
    the token it was given, and does not touch the account store. *)
Theorem getChannel_requests (name access_token : string) (w : World U) :
  exists events,
    trace (snd (getChannel name access_token w)) = (trace w ++ events)%list
    /\ (List.length events <= 3)%nat
    /\ Forall (fun ev => bearer_of ev = Some access_token) events
    /\ accounts (snd (getChannel name access_token w)) = accounts w.
Proof.
  unfold getChannel, bind. rewrite fetchUserData_run.
  destruct (helix_users name access_token (outside w)) as [r1 u1].
  destruct (ok r1); [|requests_made].
  destruct (hd_error (body r1)) as [userData|]; [|requests_made].
  rewrite fetchStreamData_run. cbn [after outside].
  destruct (helix_streams (UserData.id userData) access_token u1) as [r2 u2].
  destruct (ok r2); [|requests_made].
  destruct (hd_error (body r2)) as [streamData|]; [requests_made|].
  rewrite fetchChannelData_run. cbn [after outside].
  destruct (helix_channels (UserData.id userData) access_token u2) as [r3 u3].
  destruct (ok r3); [destruct (hd_error (body r3))|]; requests_made.
Qed.

End SearchMore.

(* ================================================================== *)
(** * CORS and the key of the rate limiter *)

Lemma prefix_app (p t : string) : String.prefix p (p ++ t) = true.
Proof.
  induction p as [|a p IH]; cbn; [now destruct t|].
  destruct (Ascii.ascii_dec a a); [exact IH|congruence].
Qed.

Lemma prefix_split (p : string) :
  forall s, String.prefix p s = true -> exists t, s = (p ++ t)%string.
Proof.
  induction p as [|a p IH]; intros s Hp.
  - now exists s.
  - destruct s as [|b s]; cbn in Hp; [discriminate|].
    destruct (Ascii.ascii_dec a b) as [<-|]; [|discriminate].
    destruct (IH s Hp) as [t ->]. now exists t.
Qed.

(** X17.  The CORS callback allows exactly the origins that begin with one
    of the five listed prefixes, whatever follows the prefix, and what it
    returns for them is the origin itself.  So an origin such as
    http://localhost:5173.example.net is allowed. *)
Theorem cors_allows_prefix_extensions (origin : string) :
  (cors_origin origin = Some origin
   <-> exists p t, In p allowedOrigins /\ origin = (p ++ t)%string)
  /\ (forall o, cors_origin origin = Some o -> o = origin).
Proof.
  unfold cors_origin. split; [split|].
  - destruct (origin =? "")%string; [discriminate|].
    destruct (existsb (startsWith origin) allowedOrigins) eqn:He;
      [|discriminate].
    intros _. apply existsb_exists in He. destruct He as (p & Hin & Hp).
    apply prefix_split in Hp. destruct Hp as [t Ht]. now exists p, t.
  - intros (p & t & Hin & ->).
    assert (Hne : ((p ++ t) =? "")%string = false).
    { cbn in Hin. destruct Hin as [<-|[<-|[<-|[<-|[<-|[]]]]]]; reflexivity. }
    rewrite Hne.
    assert (He : existsb (startsWith (p ++ t)) allowedOrigins = true).
    { apply existsb_exists. exists p. split; [exact Hin|apply prefix_app]. }
    now rewrite He.
  - intros o. destruct (origin =? "")%string; [discriminate|].
    destruct (existsb (startsWith origin) allowedOrigins); [|discriminate].
    now intros [= <-].
Qed.

Lemma cors_allows_prefix_extensions_witness :
  cors_origin "http://localhost:5173.example.net"
  = Some "http://localhost:5173.example.net".
Proof.
  apply (proj1 (cors_allows_prefix_extensions
                  "http://localhost:5173.example.net")).
  exists "http://localhost:5173", ".example.net". split; [|reflexivity].
  cbn. tauto.
Defined.

(** X18.  A request with a session is counted under user- followed by the
    id of its user, whatever its headers say; a request without one is
    counted under a key that begins with client- or ip-, never with user-:
    no header puts it in the count of a signed-in user. *)
Theorem rate_limit_key_of_session (c : KeyInput) :
  (forall id, truthy (session_user_id c) = Some id ->
              keyGenerator c = ("user-" ++ id)%string)
  /\ (truthy (session_user_id c) = None ->
      startsWith (keyGenerator c) "user-" = false
      /\ (startsWith (keyGenerator c) "client-" = true
          \/ startsWith (keyGenerator c) "ip-" = true)).
Proof.
  unfold keyGenerator. split.
  - intros id Hid. now rewrite Hid.
  - intros Hnone. rewrite Hnone.
    destruct (truthy (x_client_id c)); split; try reflexivity.
    + left. apply prefix_app.
    + right. apply prefix_app.
Qed.

Lemma rate_limit_key_of_session_witness :
  keyGenerator (mkKeyInput (Some "7") (Some "user-1") None None) = "user-7"
  /\ startsWith (keyGenerator (mkKeyInput None (Some "user-1") None None))
                "user-" = false.
Proof.
  split.
  - apply (proj1 (rate_limit_key_of_session
                    (mkKeyInput (Some "7") (Some "user-1") None None))).
    reflexivity.
  - apply (proj2 (rate_limit_key_of_session
                    (mkKeyInput None (Some "user-1") None None))).
    reflexivity.
Defined.

(* ================================================================== *)
(** * The routes *)

Section RouteFacts.
Context {U : Type} {twitch : Upstream U}.

(** A call that is given fuel begins with the request for followed
    streams. *)
Lemma fetchFollowedStreams_begins (fuel : nat) :
  forall (accountId userAccessToken : string) (w : World U),
  exists rest,
    trace (snd (fetchFollowedStreams (S fuel) accountId userAccessToken w))
    = (trace w ++ GetStreamsFollowed accountId userAccessToken :: rest)%list.
Proof.
  induction fuel as [|fuel IH]; intros accountId userAccessToken w;
    rewrite fetchFollowedStreams_step;
    destruct (helix_streams_followed accountId userAccessToken (outside w))
      as [r1 u1]; cbv zeta.
  all: destruct (ok r1);
    [destruct (Promise_all_followed
                 userAccessToken (body r1)
                 (after w u1 [GetStreamsFollowed accountId userAccessToken]))
       as [_ Htr];
     eexists; rewrite Htr; unfold after; cbn [trace];
     rewrite <- app_assoc; reflexivity|].
  all: destruct (status r1 =? 401);
    [|eexists; unfold after; cbn [snd trace]; reflexivity].
  all: destruct (usable_refresh_token _) as [[account refreshToken]|];
    [|eexists; unfold after; cbn [snd trace]; reflexivity].
  all: destruct (oauth2_token_refresh refreshToken u1) as [r2 u2].
  all: destruct (ok r2);
    [|eexists; unfold after; cbn [snd trace]; reflexivity].
  all: destruct (body r2) as [d|];
    [|eexists; unfold after; cbn [snd trace]; reflexivity].
  all: destruct (date_now u2) as [now u3].
  - eexists. cbn [fetchFollowedStreams snd]. unfold after_refresh.
    cbn [trace]. reflexivity.
  - destruct (IH accountId (TwitchTokenResponse.access_token d)
                 (after_refresh w u3 accountId userAccessToken refreshToken
                                account d now)) as [rest Hrest].
    eexists. rewrite Hrest. unfold after_refresh. cbn [trace].
    rewrite <- app_assoc. reflexivity.
Qed.

(** X19.  GET /channels/followed answers 401 when there is no session, and
    then nothing is read or sent.  Whenever the route sends anything at all,
    there is a session whose user has a twitch row with an access token and
    an account id that are not empty, and the first thing sent is the request
    for the followed streams of that account with that token. *)
Theorem followed_route_guards {S : Type} (fuel : nat)
        (session : option (SessionUser.t * S)) (w : World U) :
  (session = None ->
   route_channels_followed fuel session w = (Thrown AuthenticationError, w))
  /\ (forall ev evs,
        trace (snd (route_channels_followed fuel session w))
        = (trace w ++ ev :: evs)%list ->
        exists user s a accessToken,
          session = Some (user, s)
          /\ user_twitch_account (SessionUser.id user) (accounts w) = Some a
          /\ Account.accessToken a = Some accessToken
          /\ accessToken <> "" /\ Account.accountId a <> ""
          /\ ev = GetStreamsFollowed (Account.accountId a) accessToken).
Proof.
  split; [now intros ->|].
  intros ev evs. unfold route_channels_followed, authMiddleware, session_user.
  destruct session as [[user s]|]; cbn [option_map fst].
  2: { unfold throw. cbn [snd]. intros Htr.
       rewrite <- (app_nil_r (trace w)) in Htr at 1.
       apply app_inv_head in Htr. discriminate. }
  unfold channels_followed, linked_credentials.
  destruct (user_twitch_account (SessionUser.id user) (accounts w))
    as [a|] eqn:Hrow.
  2: { unfold throw. cbn [snd]. intros Htr.
       rewrite <- (app_nil_r (trace w)) in Htr at 1.
       apply app_inv_head in Htr. discriminate. }
  destruct (Account.accessToken a) as [tok|] eqn:Htok; cbn [truthy].
  2: { unfold throw. cbn [snd]. intros Htr.
       rewrite <- (app_nil_r (trace w)) in Htr at 1.
       apply app_inv_head in Htr. discriminate. }
  destruct tok as [|c0 tok]; destruct (Account.accountId a) as [|c1 acc] eqn:Hacc.
  1-3: unfold throw; cbn [snd]; intros Htr;
       rewrite <- (app_nil_r (trace w)) in Htr at 1;
       apply app_inv_head in Htr; discriminate.
  intros Htr. exists user, s, a, (String c0 tok).
  repeat split; try assumption; try discriminate.
  - rewrite Hacc. discriminate.
  - rewrite Hacc. destruct fuel as [|fuel].
    + cbn [fetchFollowedStreams snd] in Htr.
      rewrite <- (app_nil_r (trace w)) in Htr at 1.
      apply app_inv_head in Htr. discriminate.
    + destruct (fetchFollowedStreams_begins
                  fuel (String c1 acc) (String c0 tok) w) as [rest Hrest].
      rewrite Hrest in Htr. apply app_inv_head in Htr. now injection Htr.
Qed.

(** X20.  GET /channels/:name behind the token middleware.  While the
    credential last stored has more than 120 seconds left, the route leaves
    the cache as it is and runs getChannel with that credential's access
    token; when the cache is stale and the token endpoint refuses, the route
    answers with the middleware's 500 and sends nothing to Helix. *)
Theorem channel_route_token (l : list TokenCache.Invocation)
        (i : TokenCache.Invocation) (name : string) (w : World U) :
  0 <= TokenCache.currentTime i ->
  (forall a,
      snd (TokenCache.calls l) = Some a ->
      ~ TokenCache.refresh_due (Some a) (TokenCache.currentTime i) ->
      fst (route_channels_name (fst (TokenCache.calls l)) i name)
      = fst (TokenCache.calls l)
      /\ snd (route_channels_name (fst (TokenCache.calls l)) i name) w
         = getChannel
             name (TokenCache.access_token (TokenCache.credential a)) w)
  /\ (TokenCache.refresh_due (snd (TokenCache.calls l))
                             (TokenCache.currentTime i) ->
      ok (TokenCache.response i) = false ->
      fst (route_channels_name (fst (TokenCache.calls l)) i name)
      = fst (TokenCache.calls l)
      /\ snd (route_channels_name (fst (TokenCache.calls l)) i name) w
         = (Thrown (HTTPException
                      500 ("Failed to fetch Twitch token: "
                             ++ statusText (TokenCache.response i))),
            w)).
Proof.
  intros Hnow. pose proof (TokenCacheFacts.calls_agree l) as Hag.
  unfold TokenCache.agrees in Hag.
  unfold route_channels_name, with_twitch_token. split.
  - intros a Ha Hfresh. rewrite Ha in Hag.
    destruct (TokenCacheFacts.lookup_agreeing a (TokenCache.currentTime i) Hnow)
      as [Hiff Hsome].
    rewrite <- Hag in Hiff, Hsome.
    rewrite (TokenCacheFacts.middleware_hit
               (fst (TokenCache.calls l)) i (TokenCache.credential a)).
    + now split.
    + apply Hsome. intro Hnone. apply Hfresh. now apply Hiff.
  - intros Hdue Hfail.
    assert (Hmiss : TokenCache.lookup (fst (TokenCache.calls l))
                                      (TokenCache.currentTime i) = None).
    { destruct (snd (TokenCache.calls l)) as [a|].
      - destruct (TokenCacheFacts.lookup_agreeing
                    a (TokenCache.currentTime i) Hnow) as [Hiff _].
        rewrite Hag. now apply Hiff.
      - now rewrite Hag. }
    unfold TokenCache.twitchTokenMiddleware. rewrite Hmiss, Hfail.
    now split.
Qed.

End RouteFacts.

(* ================================================================== *)
(** * The further theorems on the sample upstream *)

Module MoreRuns.
Import Sample.

(** The account 44 has a row without a refresh token. *)
Lemma no_refresh_token_no_refresh_witness :
  fetchFollowedStreams (twitch := upstream 1) 1 "44" "at-3" Sample2.world
  = (Thrown (HTTPException 500 "Invalid access token, no refresh token found"),
     mkWorld 1%nat (accounts Sample2.world)
             [GetStreamsFollowed "44" "at-3"; AccountFindFirst "44"]).
Proof.
  apply (no_refresh_token_no_refresh
           (twitch := upstream 1) 0 "44" "at-3" Sample2.world
           (mkResponse 401 "Unauthorized" []) 1%nat);
    reflexivity.
Defined.

(** The account 43 has a refresh token that the identity server refuses
    with a 400. *)
Lemma refused_refresh_ends_call_witness :
  fetchFollowedStreams (twitch := upstream 1) 5 "43" "at-2" Sample2.world
  = (Thrown (HTTPException 400 "INVALID_TOKEN"),
     mkWorld 1%nat (accounts Sample2.world)
             [GetStreamsFollowed "43" "at-2"; AccountFindFirst "43";
              PostTokenRefresh "revoked"]).
Proof.
  apply (refused_refresh_ends_call
           (twitch := upstream 1) 4 "43" "at-2" Sample2.world
           (mkResponse 401 "Unauthorized" []) 1%nat
           Sample2.revoked "revoked"
           (mkResponse 400 "Bad Request" None) 1%nat);
    reflexivity.
Defined.

Lemma followed_failures_400_or_500_witness :
  HTTPException 500 "Failed to fetch User Data for broken"
  = HTTPException 400 "INVALID_TOKEN"
  \/ snd (onError (HTTPException 500 "Failed to fetch User Data for broken"))
     = 500.
Proof.
  apply (followed_failures_400_or_500
           (twitch := upstream 1) 2 "77" "at-old"
           (mkWorld O [Account.mk "row-7" "user-7" "77" "twitch" (Some "at-old")
                                  (Some "rt-old") None] [])).
  reflexivity.
Defined.

Lemma followed_streamers_in_order_witness :
  Forall2 followed_match
          [followed "1" "alice" 120]
          [{| channelId := "1"; displayName := "alice"; loginName := "alice";
              profileImageUrl := "alice.png"; title := "followed live";
              gameName := "Chess"; viewers := 120; isLive := true |}].
Proof.
  apply (followed_streamers_in_order
           (twitch := upstream 0) 0 "42" "at-old" world
           (mkResponse 200 "OK" [followed "1" "alice" 120]) 1%nat);
    reflexivity.
Defined.

(** Both user requests leave, though the second is refused and the call
    throws. *)
Lemma followed_requests_per_stream_witness :
  trace (snd (fetchFollowedStreams (twitch := upstream 0) 1 "77" "at-old" world))
  = [GetStreamsFollowed "77" "at-old"; GetUsers "alice" "at-old";
     GetUsers "broken" "at-old"].
Proof.
  apply (followed_requests_per_stream
           (twitch := upstream 0) 0 "77" "at-old" world
           (mkResponse 200 "OK" [followed "1" "alice" 120;
                                 followed "9" "broken" 7]) 1%nat);
    reflexivity.
Defined.

Lemma followed_all_live_witness :
  Forall (fun s => isLive s = true)
         [{| channelId := "1"; displayName := "alice"; loginName := "alice";
             profileImageUrl := "alice.png"; title := "followed live";
             gameName := "Chess"; viewers := 120; isLive := true |}].
Proof.
  apply (followed_all_live (twitch := upstream 2) 3 "42" "at-old" world).
  reflexivity.
Defined.

Lemma search_keeps_every_result_witness :
  exists unsorted,
    Forall2 search_match [found "a" "ann"; found "b" "ben"; found "c" "cy"]
            unsorted
    /\ Permutation
         unsorted
         (match fst (searchStreams (twitch := upstream 0) "chess" "app" world)
          with
          | Returned streamers => streamers
          | _ => []
          end)
    /\ List.length
         (match fst (searchStreams (twitch := upstream 0) "chess" "app" world)
          with
          | Returned streamers => streamers
          | _ => []
          end) = 3%nat.
Proof.
  destruct (searchStreams (twitch := upstream 0) "chess" "app" world)
    as [[streamers| |] w'] eqn:Hrun; try discriminate.
  apply (search_keeps_every_result
           (twitch := upstream 0) "chess" "app" world
           (mkResponse 200 "OK" [found "a" "ann"; found "b" "ben";
                                 found "c" "cy"]) 0%nat streamers).
  - reflexivity.
  - now rewrite Hrun.
Defined.

(** The three stream requests leave, though the second is refused and the
    search throws. *)
Lemma search_requests_per_result_witness :
  trace (snd (searchStreams (twitch := upstream 0) "flaky" "app" world))
  = [GetSearchChannels "flaky" "app"; GetStreams "a" "app";
     GetStreams "x" "app"; GetStreams "b" "app"].
Proof.
  apply (search_requests_per_result
           (twitch := upstream 0) "flaky" "app" world
           (mkResponse 200 "OK" [found "a" "ann"; found "x" "xi";
                                 found "b" "ben"]) 0%nat);
    reflexivity.
Defined.

Lemma search_refused_no_fan_out_witness :
  searchStreams (twitch := Sample3.upstream) "outage" "app" world
  = (Thrown (HTTPException 500 "Failed to fetch Streams"),
     mkWorld 0%nat (accounts world) [GetSearchChannels "outage" "app"]).
Proof.
  apply (search_refused_no_fan_out
           (twitch := Sample3.upstream) "outage" "app" world
           (mkResponse 502 "Bad Gateway" []) 0%nat);
    reflexivity.
Defined.

(** The user request for broken, the stream request for dave and the
    channel request for erin are refused. *)
Lemma getChannel_refused_request_witness :
  fst (getChannel (twitch := Sample3.upstream) "broken" "app" world)
  = Thrown (HTTPException 500 "Failed to fetch User Data for broken")
  /\ getChannel (twitch := Sample3.upstream) "dave" "app" world
     = (Thrown (HTTPException 500 "Failed to fetch Stream Data for x"),
        mkWorld 0%nat (accounts world)
                [GetUsers "dave" "app"; GetStreams "x" "app"])
  /\ getChannel (twitch := Sample3.upstream) "erin" "app" world
     = (Thrown (HTTPException 500 "Failed to fetch Channel Data for y"),
        mkWorld 0%nat (accounts world)
                [GetUsers "erin" "app"; GetStreams "y" "app";
                 GetChannels "y" "app"]).
Proof.
  split; [|split].
  - rewrite (proj1 (getChannel_refused_request
                      (twitch := Sample3.upstream) "broken" "app" world
                      (mkResponse 503 "Service Unavailable" []) 0%nat eq_refl)
                   eq_refl).
    reflexivity.
  - apply (proj1 (proj2 (getChannel_refused_request
                           (twitch := Sample3.upstream) "dave" "app" world
                           (mkResponse 200 "OK" [user "x" "dave" "dave.png"])
                           0%nat eq_refl)
                        (user "x" "dave" "dave.png") []
                        (mkResponse 503 "Service Unavailable" []) 0%nat
                        eq_refl eq_refl eq_refl)).
    reflexivity.
  - apply (proj2 (proj2 (getChannel_refused_request
                           (twitch := Sample3.upstream) "erin" "app" world
                           (mkResponse 200 "OK" [user "y" "erin" "erin.png"])
                           0%nat eq_refl)
                        (user "y" "erin" "erin.png") []
                        (mkResponse 200 "OK" []) 0%nat
                        eq_refl eq_refl eq_refl)
                 (mkResponse 503 "Service Unavailable" []) 0%nat);
      reflexivity.
Defined.

(** The user user-1 is signed in and has the row of account 42. *)
Lemma followed_route_guards_witness :
  exists user s a accessToken,
    Some (SessionUser.mk "user-1", tt) = Some (user, s)
    /\ user_twitch_account (SessionUser.id user) (accounts Sample2.world)
       = Some a
    /\ Account.accessToken a = Some accessToken
    /\ accessToken <> "" /\ Account.accountId a <> ""
    /\ GetStreamsFollowed "42" "at-old"
       = GetStreamsFollowed (Account.accountId a) accessToken.
Proof.
  apply (proj2 (followed_route_guards
                  (twitch := upstream 0) 1
                  (Some (SessionUser.mk "user-1", tt)) Sample2.world)
               (GetStreamsFollowed "42" "at-old") [GetUsers "alice" "at-old"]).
  reflexivity.
Defined.

(** A second after the credential is stored the route serves alice with
    it. *)
Lemma channel_route_token_witness :
  snd (route_channels_name
         (twitch := upstream 0)
         (fst (TokenCache.calls
                 [TokenCache.mkInvocation 1700000000000 granted 1700000000000]))
         (TokenCache.mkInvocation 1700000001000 Sample2.refused 1700000001000)
         "alice")
      world
  = getChannel (twitch := upstream 0) "alice" "app-token" world.
Proof.
  apply (proj1 (channel_route_token
                  (twitch := upstream 0)
                  [TokenCache.mkInvocation 1700000000000 granted 1700000000000]
                  (TokenCache.mkInvocation 1700000001000 Sample2.refused
                                           1700000001000)
                  "alice" world ltac:(cbn; lia))
               (TokenCache.mkCredential 1700000000000 3600 app_token)).
  - reflexivity.
  - vm_compute. intro H. apply H. reflexivity.
Defined.

End MoreRuns.
